(** * gfdl_utils.core: a shallow embedding and its properties

    The module [gfdl_utils/core.py] builds post-processing paths, shells out
    to the tape system ([dmget], [dmls]), mirrors files with [gcp] and lists
    directories to find variables.  Strings are [string], Python lists are
    [list], the residency dictionary is a [gmap string bool], the catalogue
    dictionary (whose key order is observable) is an association list, and
    everything that touches the operating system runs in a small monad that
    records a trace of events and asks an environment for the answers. *)

From Stdlib Require Import String Ascii List ZArith Lia Bool.
From stdpp Require Import base option list gmap strings fin_maps.

Local Open Scope string_scope.
Local Open Scope list_scope.

(** ** Python string and list primitives used by the module *)

Module Py.

(** [sep.join(l)] *)
Definition join (sep : string) (l : list string) : string :=
  String.concat sep l.

(** [s.split(sep)] for a one-character separator: never returns the empty
    list, and keeps empty fields. *)
Fixpoint split (sep : ascii) (s : string) : list string :=
  match s with
  | EmptyString => [EmptyString]
  | String c r =>
      if Ascii.eqb c sep then EmptyString :: split sep r
      else match split sep r with
           | h :: t => String c h :: t
           | [] => [String c EmptyString]
           end
  end.

(** [s.startswith(p)] *)
Fixpoint startswith (p s : string) : bool :=
  match p with
  | EmptyString => true
  | String a p' =>
      match s with
      | String b s' => Ascii.eqb a b && startswith p' s'
      | EmptyString => false
      end
  end.

(** [sub in s] on strings. *)
Fixpoint contains (sub s : string) : bool :=
  startswith sub s ||
  match s with
  | EmptyString => false
  | String _ r => contains sub r
  end.

(** [s.replace(old, new)]: one left-to-right pass over non-overlapping
    occurrences.  [skip] counts the characters of a matched occurrence that
    are still to be dropped. *)
Fixpoint replace_from (old new : string) (skip : nat) (s : string) : string :=
  match s with
  | EmptyString =>
      match old with EmptyString => new | _ => EmptyString end
  | String c r =>
      match skip with
      | S k => replace_from old new k r
      | O =>
          if startswith old s then
            match old with
            | EmptyString => new +:+ String c (replace_from old new O r)
            | String _ old' =>
                new +:+ replace_from old new (String.length old') r
            end
          else String c (replace_from old new O r)
      end
  end.

Definition replace (old new s : string) : string := replace_from old new 0 s.

(** [all(l)] and [any(l)] on lists of booleans. *)
Definition all (l : list bool) : bool := forallb id l.
Definition any (l : list bool) : bool := existsb id l.

(** [x in l] on lists of strings. *)
Definition mem (x : string) (l : list string) : bool :=
  existsb (String.eqb x) l.

(** [l[-2]]; [None] stands for [IndexError]. *)
Definition last2 {A} (l : list A) : option A :=
  match rev l with
  | _ :: x :: _ => Some x
  | _ => None
  end.

(** [l[:-1]] *)
Definition butlast {A} (l : list A) : list A := removelast l.

End Py.

(** ** Path construction *)

Definition get_pathspp (pp ppname out local time add : string) : string :=
  let filename := Py.join "." [ppname; time; add; "nc"] in
  let path := Py.join "/" [pp; ppname; out; local; filename] in
  Py.replace "//" "/" path.

Definition get_pathstatic (pp ppname : string) : string :=
  let static := Py.join "." [ppname; "static"; "nc"] in
  Py.join "/" [pp; ppname; static].


(** ** Values, exceptions and the effect monad *)

(** The arguments that the module inspects with [type(..)]/[isinstance]:
    a string, a list of strings, or [None]. *)
Inductive PyVal :=
| VStr (s : string)
| VList (l : list string)
| VNone.

Inductive Exn :=
| ValueError (msg : string)
| TypeError
| IndexError
| UnboundLocalError
| OSError.

(** What a call does: it returns, raises, or is still running when the fuel
    of the model's loops is used up. *)
Inductive Outcome (A : Type) :=
| Returned (a : A)
| Raised (e : Exn)
| Diverged.
Arguments Returned {A} a.
Arguments Raised {A} e.
Arguments Diverged {A}.

(** Every interaction with the outside world is recorded, in order.
    Sleeps are in milliseconds; [EvPrint] carries the text and its [end]. *)
Inductive Event :=
| EvGlob (pattern : string)
| EvPrint (text : string) (ending : string)
| EvSystem (cmd : string)
| EvPopen (cmd : string)
| EvSleep (ms : Z)
| EvIsfile (p : string)
| EvIsdir (p : string)
| EvMakedirs (p : string)
| EvListdir (p : string)
| EvOpenMfdataset (paths : list string).

(** The handle [xarray.open_mfdataset] gives back, named by the paths it was
    opened from (with [use_cftime=True]; further keyword arguments are passed
    through and not modelled).  On an empty list of paths xarray raises
    [OSError("no files to open")]. *)
Inductive Dataset := MkDataset (paths : list string).

(** The outside world answers as a function of everything that happened so
    far, so that the tape system and the copy tool may make progress while
    the program sleeps. *)
Record Env := {
  glob_glob : list Event -> string -> list string;
  os_system : list Event -> string -> Z;
  os_popen_read : list Event -> string -> string;
  os_path_isfile : list Event -> string -> bool;
  os_path_isdir : list Event -> string -> bool;
  os_makedirs : list Event -> string -> bool;
  os_listdir : list Event -> string -> option (list string)
}.

Definition M (A : Type) : Type := list Event -> Outcome A * list Event.

Definition ret {A} (a : A) : M A := fun h => (Returned a, h).
Definition raise {A} (e : Exn) : M A := fun h => (Raised e, h).
Definition diverge {A} : M A := fun h => (Diverged, h).
Definition bind {A B} (m : M A) (k : A -> M B) : M B :=
  fun h =>
    match m h with
    | (Returned a, h') => k a h'
    | (Raised e, h') => (Raised e, h')
    | (Diverged, h') => (Diverged, h')
    end.
Definition lift {A} (o : Outcome A) : M A := fun h => (o, h).

(** [try: m  except: handler] with a bare [except]. *)
Definition try_except {A} (m : M A) (handler : M A) : M A :=
  fun h =>
    match m h with
    | (Raised _, h') => handler h'
    | r => r
    end.

Notation "'do' x <- c1 ; c2" := (bind c1 (fun x => c2))
  (at level 10, x name, c1 at level 99, c2 at level 200).
Notation "c1 ;; c2" := (bind c1 (fun _ => c2))
  (at level 100, c2 at level 200, right associativity).

Fixpoint mapM {A B} (f : A -> M B) (l : list A) : M (list B) :=
  match l with
  | [] => ret []
  | x :: xs => do y <- f x; do ys <- mapM f xs; ret (y :: ys)
  end.

Fixpoint filterM {A} (f : A -> M bool) (l : list A) : M (list A) :=
  match l with
  | [] => ret []
  | x :: xs =>
      do b <- f x; do ys <- filterM f xs; ret (if b then x :: ys else ys)
  end.

Definition nl : string := String "010"%char EmptyString.

Section World.

Variable env : Env.

Definition emit (e : Event) : M unit := fun h => (Returned tt, h ++ [e]).

Definition glob (pattern : string) : M (list string) :=
  fun h => (Returned (glob_glob env h pattern), h ++ [EvGlob pattern]).
Definition print (text ending : string) : M unit := emit (EvPrint text ending).
Definition system (cmd : string) : M Z :=
  fun h => (Returned (os_system env h cmd), h ++ [EvSystem cmd]).
Definition popen_read (cmd : string) : M string :=
  fun h => (Returned (os_popen_read env h cmd), h ++ [EvPopen cmd]).
Definition sleep (ms : Z) : M unit := emit (EvSleep ms).
Definition isfile (p : string) : M bool :=
  fun h => (Returned (os_path_isfile env h p), h ++ [EvIsfile p]).
Definition isdir (p : string) : M bool :=
  fun h => (Returned (os_path_isdir env h p), h ++ [EvIsdir p]).
Definition makedirs (p : string) : M unit :=
  fun h => (if os_makedirs env h p then Returned tt else Raised OSError,
            h ++ [EvMakedirs p]).
Definition listdir (p : string) : M (list string) :=
  fun h => (match os_listdir env h p with
            | Some l => Returned l
            | None => Raised OSError
            end, h ++ [EvListdir p]).
Definition open_mfdataset (paths : list string) : M Dataset :=
  fun h => (match paths with
            | [] => Raised OSError
            | _ :: _ => Returned (MkDataset paths)
            end, h ++ [EvOpenMfdataset paths]).

(** ** Tape residency: [issue_dmget], [query_ondisk], [query_all_ondisk] *)

Definition dmget_cmd (paths : list string) : string :=
  "dmget " +:+ Py.join " " paths +:+ " &".

Definition issue_dmget (path : PyVal) : M Z :=
  match path with
  | VList l => system (dmget_cmd l)
  | VStr s => system ("dmget " +:+ s +:+ " &")
  | VNone => raise UnboundLocalError
  end.

(** [output.split(' ')[-1]]; the list is never empty. *)
Definition last_field (output : string) : string :=
  List.last (Py.split " " output) EmptyString.

Definition has_marker (output : string) : bool :=
  Py.contains "(REG)" output || Py.contains "(DUL)" output.

(** The [for output in outputs[:-1]] loop, writing into the dictionary. *)
Fixpoint ondisk_loop (outputs : list string) (ondisk : gmap string bool)
  : gmap string bool :=
  match outputs with
  | [] => ondisk
  | output :: rest =>
      if has_marker output
      then ondisk_loop rest (<[last_field output := true]> ondisk)
      else ondisk_loop rest (<[last_field output := false]> ondisk)
  end.

Definition parse_ondisk (text : string) : gmap string bool :=
  let outputs := Py.split "010"%char text in
  ondisk_loop (Py.butlast outputs) ∅.

Definition dmls_cmd (path : string) : string := "dmls -l " +:+ path.

Definition query_ondisk (path : string) : M (gmap string bool) :=
  do text <- popen_read (dmls_cmd path);
  ret (parse_ondisk text).

(** [d.values()] *)
Definition values (d : gmap string bool) : list bool := (map_to_list d).*2.

Definition query_all_ondisk (paths : list string) : M bool :=
  do flags <- mapM (fun path => do d <- query_ondisk path;
                                ret (Py.all (values d))) paths;
  ret (Py.all flags).

(** The loop [while not(query_all_ondisk(paths)): sleep(1.)]. *)
Fixpoint wait_ondisk (fuel : nat) (paths : list string) : M unit :=
  match fuel with
  | O => diverge
  | S fuel' =>
      do ok <- query_all_ondisk paths;
      if ok then ret tt
      else (sleep 1000 ;; wait_ondisk fuel' paths)
  end.

(** ** Mirroring: [mirror_path] *)

(** The condition of the comprehension that computes [path_to_copy];
    [and] short-circuits. *)
Definition needs_copy (prefix p : string) : M bool :=
  do there <- isfile (prefix +:+ p);
  if negb there
  then (do copying <- isfile (prefix +:+ p +:+ ".gcp");
        ret (negb copying))
  else ret false.

Definition paths_to_copy (prefix : string) (path : list string)
  : M (list string) :=
  filterM (needs_copy prefix) path.

Definition gcp_cmd (prefix destination : string) (path : list string)
  : string :=
  "gcp --debug " +:+ Py.join " " path +:+ " " +:+ prefix +:+ destination +:+ "/".

Definition mirrored (prefix : string) (path : list string) : list string :=
  map (fun p => Py.replace "//" "/" (prefix +:+ p)) path.

(** The loop [while any([not(os.path.isfile(p)) for p in path]): sleep(1.)]. *)
Fixpoint wait_isfile (fuel : nat) (path : list string) : M unit :=
  match fuel with
  | O => diverge
  | S fuel' =>
      do missing <- mapM (fun p => do b <- isfile p; ret (negb b)) path;
      if Py.any missing then (sleep 1000 ;; wait_isfile fuel' path)
      else ret tt
  end.

(** ['/'.join(path[0].split("/")[:-1])] *)
Definition destination_of (first : string) : string :=
  Py.join "/" (Py.butlast (Py.split "/" first)).

(** [if not(os.path.isdir(d)): os.makedirs(d, exist_ok=True)] *)
Definition ensure_directory (d : string) : M unit :=
  do isd <- isdir d;
  if negb isd then makedirs d else ret tt.

Definition mirror_path (fuel : nat) (path : PyVal) (prefix : string)
  : M (list string) :=
  let path := match path with VStr s => VList [s] | _ => path end in
  match path with
  | VList path =>
      match path with
      | [] => raise IndexError
      | first :: _ =>
          let destination := destination_of first in
          ensure_directory (prefix +:+ destination) ;;
          do path_to_copy <- paths_to_copy prefix path;
          sleep 500 ;;
          let cmd := gcp_cmd prefix destination path in
          print ("Trying command: " +:+ cmd) nl ;;
          do out <- system cmd;
          let path := mirrored prefix path in
          wait_isfile fuel path ;;
          sleep 500 ;;
          ret path
      end
  | _ => raise (ValueError "path must be str or list of str.")
  end.

(** ** Opening: [open_frompp] *)

(** The loop [for v in add: paths += glob.glob(get_pathspp(..., v))]. *)
Fixpoint expand_loop (pp ppname out local time : string) (add : list string)
    (paths : list string) : M (list string) :=
  match add with
  | [] => ret paths
  | v :: rest =>
      do more <- glob (get_pathspp pp ppname out local time v);
      expand_loop pp ppname out local time rest (paths ++ more)
  end.

(** The [isinstance(add, ..)] cascade that fills [paths]; with neither a
    string nor a list, [paths] is unbound at [len(paths)]. *)
Definition expand_paths (pp ppname out local time : string) (add : PyVal)
  : M (list string) :=
  match add with
  | VStr a => glob (get_pathspp pp ppname out local time a)
  | VList l => expand_loop pp ppname out local time l []
  | VNone => raise UnboundLocalError
  end.

Definition open_frompp (fuel : nat) (pp ppname out local time : string)
    (add : PyVal) (dmget mirror : bool) (prefix : string) : M Dataset :=
  if dmget && mirror
  then raise (ValueError "Can not set both `dmget=True` and `mirror=True`.")
  else
    do paths <- expand_paths pp ppname out local time add;
    do paths <-
      (if (0 <? length paths)%nat then
         if dmget then
           print "Issuing dmget command to migrate data to disk." " " ;;
           issue_dmget (VList paths) ;;
           wait_ondisk fuel paths ;;
           print "Migration complete." nl ;;
           ret paths
         else if mirror then
           print ("Mirroring paths at '" +:+ prefix +:+ "'.") " " ;;
           mirror_path fuel (VList paths) prefix ;;
           let paths := map (fun p => prefix +:+ p) paths in
           print "Mirroring complete." nl ;;
           ret paths
         else ret paths
       else ret paths);
    open_mfdataset paths.

(** ** Catalogue: [get_local], [get_varnames], [get_allvars],
       [find_variable], [find_unique_variable] *)

(** [l[0]] *)
Definition first_entry (l : list string) : M string :=
  match l with
  | x :: _ => ret x
  | [] => raise IndexError
  end.

Definition get_ppnames (pp : string) : M (list string) :=
  listdir (pp +:+ "/").

Definition get_local (pp ppname out : string) : M string :=
  do l1 <- listdir (Py.join "/" [pp; ppname; out]);
  do local1 <- first_entry l1;
  do l2 <- listdir (Py.join "/" [pp; ppname; out; local1]);
  do local2 <- first_entry l2;
  ret (Py.join "/" [local1; local2]).

(** The [for file in files] loop of [get_varnames]. *)
Fixpoint varnames_loop (files : list string) (allvars : list string)
  : Outcome (list string) :=
  match files with
  | [] => Returned allvars
  | file :: rest =>
      let split := Py.split "." file in
      if negb (Py.mem "nc" split) then varnames_loop rest allvars
      else
        match Py.last2 split with
        | None => Raised IndexError
        | Some varname =>
            if negb (Py.mem varname allvars)
            then varnames_loop rest (allvars ++ [varname])
            else varnames_loop rest allvars
        end
  end.

(** Returns [None] (Python's [None]) when the [try] block fails. *)
Definition get_varnames (pp ppname : string) (verbose : bool)
  : M (option (list string)) :=
  do valid <-
    try_except
      (do l <- listdir (Py.join "/" [pp; ppname; "ts"]);
       do local1 <- first_entry l;
       ret true)
      ((if verbose
        then print ("No ts directory in " +:+ ppname +:+
                    ". Can't retrieve variables.") nl
        else ret tt) ;;
       ret false);
  if (valid : bool) then
    do local <- get_local pp ppname "ts";
    do files <- listdir (Py.join "/" [pp; ppname; "ts"; local]);
    do allvars <- lift (varnames_loop files []);
    ret (Some allvars)
  else ret None.

(** [d[k] = v] on an insertion-ordered dictionary. *)
Fixpoint dict_set {V} (k : string) (v : V) (d : list (string * V))
  : list (string * V) :=
  match d with
  | [] => [(k, v)]
  | (k', v') :: rest =>
      if String.eqb k k' then (k, v) :: rest
      else (k', v') :: dict_set k v rest
  end.

(** The loop [for ppname in ppnames] of [get_allvars]. *)
Fixpoint allvars_loop (pp : string) (verbose : bool) (ppnames : list string)
    (allvars : list (string * list string))
  : M (list (string * list string)) :=
  match ppnames with
  | [] => ret allvars
  | ppname :: rest =>
      do varnames <- get_varnames pp ppname verbose;
      match varnames with
      | Some vs => allvars_loop pp verbose rest (dict_set ppname vs allvars)
      | None => allvars_loop pp verbose rest allvars
      end
  end.

Definition get_allvars (pp : string) (verbose : bool)
  : M (list (string * list string)) :=
  do ppnames <- get_ppnames pp;
  allvars_loop pp verbose ppnames [].

(** The loop of [find_variable] over [allvars.keys()]. *)
Fixpoint find_loop (variable : string) (verbose : bool)
    (allvars : list (string * list string)) (ppnames : list string)
    (found : bool) : M (list string * bool) :=
  match allvars with
  | [] => ret (ppnames, found)
  | (ppname, varnames) :: rest =>
      if Py.mem variable varnames then
        (if verbose then print (variable +:+ " is in " +:+ ppname) nl
         else ret tt) ;;
        find_loop variable verbose rest (ppnames ++ [ppname]) true
      else find_loop variable verbose rest ppnames found
  end.

Definition find_variable (pp variable : string) (verbose : bool)
  : M (option (list string)) :=
  do allvars <- get_allvars pp verbose;
  do r <- find_loop variable verbose allvars [] false;
  if snd r then ret (Some (fst r))
  else (print ("No " +:+ variable +:+ " in this pp.") nl ;; ret None).

(** [type(x) is str] turns a string into a one-element list. *)
Definition as_list (x : PyVal) : PyVal :=
  match x with
  | VStr s => VList [s]
  | _ => x
  end.

(** The condition of the comprehension; iterating over [None] raises. *)
Definition keeps (require ignore : PyVal) (e : string) : Outcome bool :=
  match require with
  | VList rq =>
      if Py.all (map (fun r => Py.contains r e) rq) then
        match ignore with
        | VList ig => Returned (negb (Py.any (map (fun s => Py.contains s e) ig)))
        | _ => Raised TypeError
        end
      else Returned false
  | _ => Raised TypeError
  end.

Fixpoint filter_candidates (require ignore : PyVal) (l : list string)
  : Outcome (list string) :=
  match l with
  | [] => Returned []
  | e :: rest =>
      match keeps require ignore e with
      | Returned b =>
          match filter_candidates require ignore rest with
          | Returned ys => Returned (if b then e :: ys else ys)
          | r => r
          end
      | Raised x => Raised x
      | Diverged => Diverged
      end
  end.

(** [repr] of a string, for characters that are code points below 256.
    The string is written in single quotes, or in double quotes when it
    holds a single quote and no double quote; the backslash and the quote
    in use are escaped with a backslash, tab, newline and carriage return
    are written [\t], [\n], [\r], and every other character that is not
    printable (below 32, 127 to 160, 173) is written [\xNN]. *)
Definition squote : ascii := "039"%char.
Definition dquote : ascii := "034"%char.
Definition backslash : ascii := "092"%char.

Definition hex_digit (n : nat) : ascii :=
  nth n ["0"; "1"; "2"; "3"; "4"; "5"; "6"; "7"; "8"; "9";
         "a"; "b"; "c"; "d"; "e"; "f"]%char "0"%char.

Definition printable (n : nat) : bool :=
  ((32 <=? n) && (n <=? 126) ||
   (161 <=? n) && (n <=? 255) && negb (n =? 173))%nat.

Definition repr_char (quote c : ascii) : string :=
  let n := nat_of_ascii c in
  if Ascii.eqb c quote || Ascii.eqb c backslash
  then String backslash (String c EmptyString)
  else if (n =? 9)%nat then String backslash "t"
  else if (n =? 10)%nat then String backslash "n"
  else if (n =? 13)%nat then String backslash "r"
  else if printable n then String c EmptyString
  else String backslash
         (String "x"
            (String (hex_digit (n / 16))
               (String (hex_digit (n mod 16)) EmptyString))).

Fixpoint repr_body (quote : ascii) (s : string) : string :=
  match s with
  | EmptyString => EmptyString
  | String c r => repr_char quote c +:+ repr_body quote r
  end.

Definition repr_str (s : string) : string :=
  let quote :=
    if Py.contains (String squote EmptyString) s &&
       negb (Py.contains (String dquote EmptyString) s)
    then dquote else squote in
  String quote (repr_body quote s +:+ String quote EmptyString).

(** [repr] of a list of strings, as the f-string prints [{local_list}]. *)
Definition repr_list (l : list string) : string :=
  "[" +:+ Py.join ", " (map repr_str l) +:+ "]".

Definition no_match_error : Exn :=
  ValueError "No variables matching these constraints available.".

Definition ambiguous_error (variable : string) (l : list string) : Exn :=
  ValueError ("Ambiguous request; more than one ppname" +:+
              "containing variable '" +:+ variable +:+ "' satisfies" +:+
              "these constraints: " +:+ repr_list l +:+ ".").

Definition find_unique_variable (pp variable : string)
    (require ignore : PyVal) (unique : bool) : M PyVal :=
  let ignore := as_list ignore in
  let require := as_list require in
  do candidates <- find_variable pp variable false;
  match candidates with
  | None => raise TypeError
  | Some cands =>
      do local_list <- lift (filter_candidates require ignore cands);
      match local_list with
      | [x] => ret (VStr x)
      | [] => raise no_match_error
      | _ => if unique then raise (ambiguous_error variable local_list)
             else ret (VList local_list)
      end
  end.

End World.

Arguments ret {A} a h /.
Arguments raise {A} e h /.
Arguments diverge {A} h /.
Arguments lift {A} o h /.

(** ** Vocabulary of the statements *)

Definition slash : ascii := "/"%char.

(** [s] begins with a separator. *)
Definition starts_slash (s : string) : bool :=
  match s with
  | String c _ => Ascii.eqb slash c
  | EmptyString => false
  end.

Definition nonempty (s : string) : bool :=
  match s with
  | EmptyString => false
  | String _ _ => true
  end.

Definition has_slash (s : string) : bool := Py.contains "/" s.
Definition has_double (s : string) : bool := Py.contains "//" s.
Definition has_triple (s : string) : bool := Py.contains "///" s.

Definition collapse (s : string) : string := Py.replace "//" "/" s.

(** A well-formed path specification: the root has no doubled separator
    (it may end with one), the component name and the averaging kind are
    non-empty names without separator, the local layout is a relative path
    without doubled separator (it may be empty or end with a separator), and
    the time and suffix strings are file-name parts without separator. *)
Definition well_formed (pp ppname out local time add : string) : bool :=
  negb (has_double pp) &&
  nonempty ppname && negb (has_slash ppname) &&
  nonempty out && negb (has_slash out) &&
  negb (starts_slash local) && negb (has_double local) &&
  negb (has_slash time) && negb (has_slash add).

(** The newline-terminated lines of a command's output, as the loop of
    [query_ondisk] sees them. *)
Definition output_lines (text : string) : list string :=
  Py.butlast (Py.split "010"%char text).

(** The map [query_ondisk path] computes when it is called after [h]. *)
Definition residency (env : Env) (h : list Event) (path : string)
  : gmap string bool :=
  parse_ondisk (os_popen_read env h (dmls_cmd path)).

(** The residency queries of one evaluation of [query_all_ondisk]. *)
Definition dmls_events (paths : list string) : list Event :=
  map (fun p => EvPopen (dmls_cmd p)) paths.

(** [text] followed by a newline. *)
Definition line (text : string) : string := text +:+ nl.

(** The answers of one evaluation of [query_all_ondisk] started after [h]:
    one flag per path, each from a fresh [query_ondisk]. *)
Fixpoint ondisk_flags (env : Env) (h : list Event) (paths : list string)
  : list bool :=
  match paths with
  | [] => []
  | p :: rest =>
      Py.all (values (residency env h p)) ::
      ondisk_flags env (h ++ [EvPopen (dmls_cmd p)]) rest
  end.

(** A tape system that answers with a fixed listing, whatever is asked. *)
Definition fixed_listing (text : string) : Env :=
  {| glob_glob := fun _ _ => [];
     os_system := fun _ _ => 0%Z;
     os_popen_read := fun _ _ => text;
     os_path_isfile := fun _ _ => false;
     os_path_isdir := fun _ _ => false;
     os_makedirs := fun _ _ => true;
     os_listdir := fun _ _ => None |}.

Definition offline_line : string :=
  "-rw-r--r-- 1 u g 10 Jan 1 2020 (OFL) /archive/a.nc".
Definition regular_line : string :=
  "-rw-r--r-- 1 u g 10 Jan 1 2020 (REG) /archive/a.nc".
Definition dual_line : string :=
  "-rw-r--r-- 1 u g 10 Jan 1 2020 (DUL) /archive/b.nc".

(** The test [get_varnames] applies: some dot-delimited segment is [nc]. *)
Definition has_nc_segment (file : string) : bool :=
  Py.mem "nc" (Py.split "." file).

(** The file name ends in [.nc]: the last of at least two segments is [nc]. *)
Definition has_nc_extension (file : string) : bool :=
  match rev (Py.split "." file) with
  | last :: _ :: _ => String.eqb last "nc"
  | _ => false
  end.

(** The second-to-last dot-delimited segment, when there is one. *)
Definition varname_of (file : string) : option string :=
  Py.last2 (Py.split "." file).

(** Duplicates removed, each element at the place of its first occurrence. *)
Definition first_seen (l : list string) : list string :=
  reverse (remove_dups (reverse l)).

(** What the loop of [get_varnames] computes. *)
Definition kept_varnames (files : list string) : list string :=
  first_seen (omap varname_of (List.filter has_nc_segment files)).

(** What the specification says it computes: only files with the [.nc]
    extension are kept. *)
Definition stated_varnames (files : list string) : list string :=
  first_seen (omap varname_of (List.filter has_nc_extension files)).

(** A file system that does not change: [listdir] reads a fixed tree;
    nothing else answers. *)
Definition static_tree (tree : string -> option (list string)) : Env :=
  {| glob_glob := fun _ _ => [];
     os_system := fun _ _ => 0%Z;
     os_popen_read := fun _ _ => EmptyString;
     os_path_isfile := fun _ _ => false;
     os_path_isdir := fun _ _ => false;
     os_makedirs := fun _ _ => true;
     os_listdir := fun _ p => tree p |}.

Definition demo_tree (p : string) : option (list string) :=
  if String.eqb p "/pp/" then Some ["atmos"]
  else if String.eqb p "/pp/atmos/ts" then Some ["annual"]
  else if String.eqb p "/pp/atmos/ts/annual" then Some ["5yr"]
  else if String.eqb p "/pp/atmos/ts/annual/5yr"
  then Some ["atmos.20000101.tas.nc"; "atmos.20000101.tas.nc";
             "atmos.20000101.pr.nc"]
  else None.

(** The condition of [find_unique_variable] on a candidate, for lists of
    required and ignored substrings. *)
Definition passes (rq ig : list string) (e : string) : bool :=
  forallb (fun r => Py.contains r e) rq &&
  negb (existsb (fun s => Py.contains s e) ig).

(** The filtered candidate list [local_list]. *)
Definition filtered (rq ig : list string) (cands : list string)
  : list string :=
  List.filter (passes rq ig) cands.

(** One unsuccessful round of the migration loop: the residency queries of
    [query_all_ondisk], then the one-second sleep. *)
Definition poll_round (paths : list string) : list Event :=
  dmls_events paths ++ [EvSleep 1000].

Fixpoint poll_rounds (n : nat) (paths : list string) : list Event :=
  match n with
  | O => []
  | S n' => poll_round paths ++ poll_rounds n' paths
  end.

Definition is_system (e : Event) : bool :=
  match e with EvSystem _ => true | _ => false end.

Definition is_sleep (e : Event) : bool :=
  match e with EvSleep _ => true | _ => false end.

Definition sleeps (h : list Event) : nat := length (List.filter is_sleep h).

Definition demo_path : string :=
  "/archive/pp/atmos/ts/annual/5yr/atmos.2000-2004.tas.nc".

Definition demo_path_pr : string :=
  "/archive/pp/atmos/ts/annual/5yr/atmos.2000-2004.pr.nc".

(** A tape system that brings the files on disk during the [n]-th sleep of
    the program: [dmls] reports a file offline before, and regular after.
    Every pattern matches the one file it names. *)
Definition slow_archive (n : nat) : Env :=
  {| glob_glob := fun _ pattern => [pattern];
     os_system := fun _ _ => 0%Z;
     os_popen_read := fun h _ =>
       if (sleeps h <? n)%nat then line offline_line else line regular_line;
     os_path_isfile := fun _ _ => false;
     os_path_isdir := fun _ _ => false;
     os_makedirs := fun _ _ => true;
     os_listdir := fun _ _ => None |}.

(** The trace of [open_frompp] in migration mode up to the request. *)
Definition requested (h1 : list Event) (paths : list string) : list Event :=
  h1 ++ [EvPrint "Issuing dmget command to migrate data to disk." " ";
         EvSystem (dmget_cmd paths)].

(** ... after [n] unsuccessful rounds ... *)
Definition polled (h1 : list Event) (paths : list string) (n : nat)
  : list Event :=
  requested h1 paths ++ poll_rounds n paths.

(** ... and at the end, when the evaluation after [n] rounds succeeded. *)
Definition migrated (h1 : list Event) (paths : list string) (n : nat)
  : list Event :=
  polled h1 paths n ++ dmls_events paths ++
  [EvPrint "Migration complete." nl; EvOpenMfdataset paths].

(** The existence checks of one evaluation of the loop of [mirror_path]. *)
Definition isfile_events (path : list string) : list Event :=
  map EvIsfile path.

(** Their negated answers, when the evaluation starts after [h]. *)
Fixpoint missing_flags (env : Env) (h : list Event) (path : list string)
  : list bool :=
  match path with
  | [] => []
  | p :: rest =>
      negb (os_path_isfile env h p) ::
      missing_flags env (h ++ [EvIsfile p]) rest
  end.

(** The trace of [mirror_path] from the end of the filtering to the copy
    command. *)
Definition copy_issued (prefix : string) (path : list string) : list Event :=
  match path with
  | [] => []
  | first :: _ =>
      [EvSleep 500;
       EvPrint ("Trying command: " +:+
                gcp_cmd prefix (destination_of first) path) nl;
       EvSystem (gcp_cmd prefix (destination_of first) path)]
  end.

(** A scratch disk on which every file and directory asked for exists. *)
Definition all_mirrored : Env :=
  {| glob_glob := fun _ _ => [demo_path];
     os_system := fun _ _ => 0%Z;
     os_popen_read := fun _ _ => EmptyString;
     os_path_isfile := fun _ _ => true;
     os_path_isdir := fun _ _ => true;
     os_makedirs := fun _ _ => true;
     os_listdir := fun _ _ => None |}.

(** The paths [open_frompp] opens in mirror mode. *)
Definition prefixed (prefix : string) (paths : list string) : list string :=
  map (fun p => prefix +:+ p) paths.

(** The trace of [open_frompp] in mirror mode up to the call of
    [mirror_path]. *)
Definition mirroring (h1 : list Event) (prefix : string) : list Event :=
  h1 ++ [EvPrint ("Mirroring paths at '" +:+ prefix +:+ "'.") " "].

(** ** More of the module: [get_timefrequency], [query_is1x1deg] *)

(** [get_local(pp,ppname,'ts').split('/')[0]] *)
Definition get_timefrequency (env : Env) (pp ppname : string) : M string :=
  do local <- get_local env pp ppname "ts";
  first_entry (Py.split "/" local).

(** [ppname.split('_')[-1]=='1x1deg'] *)
Definition query_is1x1deg (ppname : string) : bool :=
  String.eqb (List.last (Py.split "_" ppname) EmptyString) "1x1deg".

(** [s] contains the character [c]. *)
Fixpoint has_char (c : ascii) (s : string) : bool :=
  match s with
  | EmptyString => false
  | String d r => Ascii.eqb d c || has_char c r
  end.

(** [s] ends with a separator. *)
Fixpoint ends_slash (s : string) : bool :=
  match s with
  | EmptyString => false
  | String c EmptyString => Ascii.eqb slash c
  | String _ r => ends_slash r
  end.

(** The lines, each followed by a newline. *)
Fixpoint unlines (ls : list string) : string :=
  match ls with
  | [] => EmptyString
  | l :: rest => l +:+ nl +:+ unlines rest
  end.

(** One unsuccessful round of the loop of [mirror_path]: the existence
    checks, then the one-second sleep. *)
Definition file_round (path : list string) : list Event :=
  isfile_events path ++ [EvSleep 1000].

Fixpoint file_rounds (n : nat) (path : list string) : list Event :=
  match n with
  | O => []
  | S n' => file_round path ++ file_rounds n' path
  end.

(** A scratch disk on which the copies appear during the [n]-th sleep. *)
Definition slow_copy (n : nat) : Env :=
  {| glob_glob := fun _ _ => [demo_path];
     os_system := fun _ _ => 0%Z;
     os_popen_read := fun _ _ => EmptyString;
     os_path_isfile := fun h _ => (n <=? sleeps h)%nat;
     os_path_isdir := fun _ _ => true;
     os_makedirs := fun _ _ => true;
     os_listdir := fun _ _ => None |}.

(** The components of a catalogue that list [variable], in its order. *)
Definition components_with (variable : string)
    (allvars : list (string * list string)) : list string :=
  map fst (List.filter (fun kv => Py.mem variable (snd kv)) allvars).

(** A tree whose [ts] directory has a frequency level without chunk
    directories. *)
Definition hollow_tree (p : string) : option (list string) :=
  if String.eqb p "/pp/" then Some ["atmos"]
  else if String.eqb p "/pp/atmos/ts" then Some ["annual"]
  else if String.eqb p "/pp/atmos/ts/annual" then Some []
  else None.

(** A scratch disk on which nothing exists and nothing can be created. *)
Definition readonly_scratch : Env :=
  {| glob_glob := fun _ _ => [];
     os_system := fun _ _ => 0%Z;
     os_popen_read := fun _ _ => EmptyString;
     os_path_isfile := fun _ _ => false;
     os_path_isdir := fun _ _ => false;
     os_makedirs := fun _ _ => false;
     os_listdir := fun _ _ => None |}.

(** The exceptions that listing and indexing can raise. *)
Definition listing_error (e : Exn) : Prop := e = OSError \/ e = IndexError.

(** A tree with two components that both hold the variable [tas]. *)
Definition twin_tree (p : string) : option (list string) :=
  if String.eqb p "/pp/" then Some ["atmos"; "atmos_month"]
  else if String.eqb p "/pp/atmos/ts" then Some ["annual"]
  else if String.eqb p "/pp/atmos/ts/annual" then Some ["5yr"]
  else if String.eqb p "/pp/atmos/ts/annual/5yr"
  then Some ["atmos.2000-2004.tas.nc"]
  else if String.eqb p "/pp/atmos_month/ts" then Some ["monthly"]
  else if String.eqb p "/pp/atmos_month/ts/monthly" then Some ["5yr"]
  else if String.eqb p "/pp/atmos_month/ts/monthly/5yr"
  then Some ["atmos_month.200001-200412.tas.nc"]
  else None.

(** A time-series directory that also holds a backup copy of a file. *)
Definition backup_tree (p : string) : option (list string) :=
  if String.eqb p "/pp/" then Some ["atmos"]
  else if String.eqb p "/pp/atmos/ts" then Some ["annual"]
  else if String.eqb p "/pp/atmos/ts/annual" then Some ["5yr"]
  else if String.eqb p "/pp/atmos/ts/annual/5yr"
  then Some ["atmos.20000101.tas.nc"; "atmos.20000101.tas.nc.bak"]
  else None.

(** A scratch disk on which every file and directory asked for exists,
    and an archive on which every pattern matches the one file it names. *)
Definition mirrored_archive : Env :=
  {| glob_glob := fun _ pattern => [pattern];
     os_system := fun _ _ => 0%Z;
     os_popen_read := fun _ _ => EmptyString;
     os_path_isfile := fun _ _ => true;
     os_path_isdir := fun _ _ => true;
     os_makedirs := fun _ _ => true;
     os_listdir := fun _ _ => None |}.

(** * Properties *)

(** ** Strings *)

#[local] Arguments Ascii.eqb : simpl never.

Lemma eqb_slash c : Ascii.eqb slash c = true -> c = slash.
Proof. intros H. symmetry. by apply Ascii.eqb_eq. Qed.

Lemma has_slash_cons c r :
  has_slash (String c r) = Ascii.eqb slash c || has_slash r.
Proof.
  unfold has_slash. cbn. fold slash. by rewrite andb_true_r.
Qed.

Lemma has_double_cons c r :
  has_double (String c r) = Ascii.eqb slash c && starts_slash r || has_double r.
Proof.
  unfold has_double. cbn. fold slash.
  destruct r as [|d r]; cbn; [by rewrite andb_false_r|].
  fold slash. by rewrite andb_true_r.
Qed.

Lemma has_triple_cons c r :
  has_triple (String c r) =
  Ascii.eqb slash c && Py.startswith "//" r || has_triple r.
Proof. reflexivity. Qed.

Lemma startswith_double r :
  Py.startswith "//" r =
  match r with
  | String d r' => Ascii.eqb slash d && starts_slash r'
  | EmptyString => false
  end.
Proof.
  destruct r as [|d [|e r]]; cbn; fold slash; try reflexivity.
  by rewrite andb_true_r.
Qed.

Lemma collapse_cons c r :
  collapse (String c r) =
  if Ascii.eqb slash c && starts_slash r
  then String slash (collapse (match r with String _ r' => r' | _ => r end))
  else String c (collapse r).
Proof.
  unfold collapse, Py.replace. cbn. fold slash.
  destruct r as [|d r]; cbn; fold slash.
  - by rewrite andb_false_r.
  - rewrite andb_true_r. reflexivity.
Qed.

Lemma starts_slash_collapse s : starts_slash (collapse s) = starts_slash s.
Proof.
  destruct s as [|c r]; [reflexivity|].
  rewrite collapse_cons.
  destruct (Ascii.eqb slash c) eqn:Hc; cbn [andb]; [|reflexivity].
  destruct (starts_slash r); cbn [starts_slash]; [|reflexivity].
  by rewrite Hc.
Qed.

Lemma has_double_collapse_upto n :
  forall s, (String.length s <= n)%nat -> has_double (collapse s) = has_triple s.
Proof.
  induction n as [|n IH]; intros s Hn.
  - destruct s; [reflexivity | cbn in Hn; lia].
  - destruct s as [|c r]; [reflexivity|].
    cbn in Hn.
    rewrite collapse_cons, has_triple_cons, startswith_double.
    destruct (Ascii.eqb slash c) eqn:Hc; cbn [andb orb].
    + destruct r as [|d r'].
      { cbn [starts_slash]. rewrite has_double_cons. cbn [starts_slash].
        by rewrite andb_false_r. }
      cbn [starts_slash]. cbn in Hn.
      destruct (Ascii.eqb slash d) eqn:Hd.
      * rewrite has_double_cons, starts_slash_collapse, IH by lia.
        rewrite has_triple_cons, startswith_double, Hd.
        cbn [andb orb].
        destruct r' as [|e r'']; [reflexivity|].
        cbn [starts_slash].
        destruct (Ascii.eqb slash e); reflexivity.
      * rewrite has_double_cons, starts_slash_collapse. cbn [starts_slash].
        rewrite Hd, andb_false_r. cbn [orb].
        apply IH. cbn. lia.
    + rewrite has_double_cons, Hc. cbn [andb orb]. apply IH. lia.
Qed.

(** One pass of [replace] halves every run of separators, rounding up: the
    result is free of doubled separators exactly when the argument has no
    run of three. *)
Lemma has_double_collapse s : has_double (collapse s) = has_triple s.
Proof. by apply (has_double_collapse_upto (String.length s)). Qed.

Lemma app_cons x a b : String x a +:+ b = String x (a +:+ b).
Proof. reflexivity. Qed.

Lemma app_nil b : EmptyString +:+ b = b.
Proof. reflexivity. Qed.

Lemma append_assoc (a b c : string) : (a +:+ b) +:+ c = a +:+ (b +:+ c).
Proof.
  induction a as [|x a IH]; [reflexivity|].
  by rewrite !app_cons, IH.
Qed.

Lemma append_cons_assoc a c b :
  a +:+ String slash (String c b) = (a +:+ String slash EmptyString) +:+ String c b.
Proof. by rewrite append_assoc, app_cons, app_nil. Qed.

Lemma has_slash_app a b : has_slash (a +:+ b) = has_slash a || has_slash b.
Proof.
  induction a as [|x a IH]; rewrite ?app_cons, ?app_nil.
  - reflexivity.
  - by rewrite !has_slash_cons, IH, orb_assoc.
Qed.

Lemma starts_slash_no_slash s : has_slash s = false -> starts_slash s = false.
Proof.
  destruct s as [|c r]; [done|]. rewrite has_slash_cons. cbn [starts_slash].
  by intros [? ?]%orb_false_elim.
Qed.

Lemma no_slash_no_double s : has_slash s = false -> has_double s = false.
Proof.
  induction s as [|c r IH]; [done|].
  rewrite has_slash_cons, has_double_cons.
  intros [Hc Hr]%orb_false_elim. by rewrite Hc, IH.
Qed.

Lemma no_slash_no_triple s : has_slash s = false -> has_triple s = false.
Proof.
  induction s as [|c r IH]; [done|].
  rewrite has_slash_cons, has_triple_cons.
  intros [Hc Hr]%orb_false_elim. by rewrite Hc, IH.
Qed.

(** A character other than the separator cuts the string in two as far as
    runs of separators are concerned. *)
Lemma startswith_double_app a c b :
  Ascii.eqb slash c = false ->
  Py.startswith "//" (a +:+ String c b) = Py.startswith "//" a.
Proof.
  intros Hc. rewrite !startswith_double.
  destruct a as [|x [|y a]]; rewrite ?app_cons, ?app_nil; cbn [starts_slash].
  - by rewrite Hc.
  - by rewrite Hc.
  - reflexivity.
Qed.

Lemma has_triple_app a c b :
  Ascii.eqb slash c = false ->
  has_triple (a +:+ String c b) = has_triple a || has_triple (String c b).
Proof.
  intros Hc. induction a as [|x a IH]; [reflexivity|].
  rewrite app_cons, (has_triple_cons x), (has_triple_cons x a), IH.
  rewrite startswith_double_app by done.
  by rewrite orb_assoc.
Qed.

Lemma has_triple_snoc a :
  has_double a = false -> has_triple (a +:+ String slash EmptyString) = false.
Proof.
  induction a as [|x a IH]; [done|].
  rewrite has_double_cons. intros [Hx Ha]%orb_false_elim.
  rewrite ?app_cons, ?app_nil. rewrite has_triple_cons, IH, orb_false_r by done.
  destruct (Ascii.eqb slash x); [|done]. cbn [andb] in *.
  rewrite startswith_double.
  destruct a as [|y a]; [done|]. rewrite ?app_cons, ?app_nil in *; cbn [starts_slash] in *.
  by rewrite Hx.
Qed.

Lemma has_triple_snoc2 a :
  has_slash a = false ->
  has_triple (a +:+ String slash (String slash EmptyString)) = false.
Proof.
  induction a as [|x a IH]; [done|].
  rewrite has_slash_cons. intros [Hx Ha]%orb_false_elim.
  rewrite ?app_cons, ?app_nil. by rewrite has_triple_cons, IH, Hx.
Qed.

Lemma join_cons sep x y l :
  Py.join sep (x :: y :: l) = x +:+ sep +:+ Py.join sep (y :: l).
Proof. reflexivity. Qed.

Lemma join_one sep x : Py.join sep [x] = x.
Proof. reflexivity. Qed.

Lemma well_formed_no_triple pp ppname out local time add :
  well_formed pp ppname out local time add = true ->
  has_triple
    (Py.join "/" [pp; ppname; out; local;
                  Py.join "." [ppname; time; add; "nc"]]) = false.
Proof.
  unfold well_formed. rewrite !andb_true_iff, !negb_true_iff.
  intros [[[[[[[[Hpp Hn1] Hn2] Ho1] Ho2] Hl1] Hl2] Ht] Ha].
  set (filename := Py.join "." [ppname; time; add; "nc"]).
  assert (Hf : has_slash filename = false).
  { unfold filename. rewrite !join_cons, join_one, !has_slash_app.
    by rewrite Hn2, Ht, Ha. }
  assert (Hfc : exists f f', filename = String f f' /\ Ascii.eqb slash f = false).
  { destruct filename as [|f f'] eqn:E.
    - unfold filename in E. rewrite join_cons in E. by destruct ppname.
    - exists f, f'. split; [done|].
      rewrite has_slash_cons in Hf. by apply orb_false_elim in Hf as [? _]. }
  destruct Hfc as (f & f' & Hfe & Hfs).
  rewrite !join_cons, join_one.
  change (String "/" EmptyString) with (String slash EmptyString).
  assert (Hc : exists c p', ppname = String c p' /\ Ascii.eqb slash c = false).
  { destruct ppname as [|c p']; [done|]. exists c, p'. split; [done|].
    rewrite has_slash_cons in Hn2. by apply orb_false_elim in Hn2 as [? _]. }
  assert (Ho : exists o o', out = String o o' /\ Ascii.eqb slash o = false).
  { destruct out as [|o o']; [done|]. exists o, o'. split; [done|].
    rewrite has_slash_cons in Ho2. by apply orb_false_elim in Ho2 as [? _]. }
  destruct Hc as (c & p' & Ec & Hc). destruct Ho as (o & o' & Eo & Ho).
  (* root / component *)
  rewrite <- (append_assoc pp). rewrite Ec at 1. rewrite app_cons.
  rewrite (has_triple_app _ c) by done. rewrite <- app_cons, <- Ec.
  rewrite has_triple_snoc, orb_false_l by done.
  (* component / kind *)
  rewrite <- (append_assoc ppname). rewrite Eo at 1. rewrite app_cons.
  rewrite (has_triple_app _ o) by done. rewrite <- app_cons, <- Eo.
  rewrite has_triple_snoc, orb_false_l by (by apply no_slash_no_double).
  (* kind / layout / file name *)
  destruct local as [|l l'].
  - rewrite app_nil, <- !append_assoc. rewrite Hfe.
    rewrite (has_triple_app _ f) by done. rewrite <- Hfe.
    rewrite (no_slash_no_triple filename), orb_false_r by done.
    rewrite append_assoc. by apply has_triple_snoc2.
  - cbn [starts_slash] in Hl1.
    rewrite <- (append_assoc out), app_cons.
    rewrite (has_triple_app _ l) by done. rewrite <- app_cons.
    rewrite has_triple_snoc, orb_false_l by (by apply no_slash_no_double).
    rewrite <- (append_assoc (String l l')), Hfe.
    rewrite (has_triple_app _ f) by done. rewrite <- Hfe.
    rewrite (no_slash_no_triple filename), orb_false_r by done.
    by apply has_triple_snoc.
Qed.

(** C3. For every well-formed path specification, the path built by
    [get_pathspp] contains no doubled separator. *)
Theorem get_pathspp_no_double_separator pp ppname out local time add :
  well_formed pp ppname out local time add = true ->
  has_double (get_pathspp pp ppname out local time add) = false.
Proof.
  intros Hwf. unfold get_pathspp. cbv zeta.
  change (Py.replace "//" "/" ?s) with (collapse s).
  rewrite has_double_collapse. by apply well_formed_no_triple.
Qed.

Lemma get_pathspp_no_double_separator_witness :
  well_formed "/archive/pp/" "atmos" "ts" "annual/5yr" "2000-2004" "tas" = true /\
  has_double
    (get_pathspp "/archive/pp/" "atmos" "ts" "annual/5yr" "2000-2004" "tas")
  = false.
Proof.
  split; [reflexivity|].
  apply (get_pathspp_no_double_separator
           "/archive/pp/" "atmos" "ts" "annual/5yr" "2000-2004" "tas").
  reflexivity.
Defined.

(** Outside the well-formed inputs the single pass of [replace] is all there
    is: the result has a doubled separator exactly when the joined string
    has a run of three. *)
Lemma get_pathspp_double_iff_triple pp ppname out local time add :
  has_double (get_pathspp pp ppname out local time add) =
  has_triple (Py.join "/" [pp; ppname; out; local;
                           Py.join "." [ppname; time; add; "nc"]]).
Proof.
  unfold get_pathspp. cbv zeta.
  change (Py.replace "//" "/" ?s) with (collapse s).
  apply has_double_collapse.
Qed.

Example get_pathspp_root_with_doubled_separator :
  get_pathspp "/archive/pp//" "atmos" "ts" "annual/5yr" "2000-2004" "tas"
  = "/archive/pp//atmos/ts/annual/5yr/atmos.2000-2004.tas.nc".
Proof. reflexivity. Qed.

(** ** The effect monad *)

Lemma bind_returned {A B} (m : M A) (k : A -> M B) h a h' :
  m h = (Returned a, h') -> bind m k h = k a h'.
Proof. intros H. unfold bind. by rewrite H. Qed.

Lemma bind_raised {A B} (m : M A) (k : A -> M B) h e h' :
  m h = (Raised e, h') -> bind m k h = (Raised e, h').
Proof. intros H. unfold bind. by rewrite H. Qed.

Lemma bind_diverged {A B} (m : M A) (k : A -> M B) h h' :
  m h = (Diverged, h') -> bind m k h = (Diverged, h').
Proof. intros H. unfold bind. by rewrite H. Qed.

(** ** C8: the two migration modes exclude each other *)

(** C8. With both [dmget=True] and [mirror=True], [open_frompp] raises the
    configuration error and the trace is unchanged: no path expansion, no
    command and no other interaction happened. *)
Theorem open_frompp_both_modes_rejected env fuel pp ppname out local time add
    prefix h :
  open_frompp env fuel pp ppname out local time add true true prefix h =
  (Raised (ValueError "Can not set both `dmget=True` and `mirror=True`."), h).
Proof. reflexivity. Qed.

(** ** Residency *)

Lemma ondisk_loop_cons l rest d :
  ondisk_loop (l :: rest) d =
  ondisk_loop rest (<[last_field l := has_marker l]> d).
Proof. cbn. by destruct (has_marker l). Qed.

Lemma ondisk_loop_lookup lines : forall (d0 : gmap string bool) k v,
  ondisk_loop lines d0 !! k = Some v <->
  (exists pre l post,
      lines = pre ++ l :: post /\ last_field l = k /\ has_marker l = v /\
      forall l', l' ∈ post -> last_field l' <> k) \/
  (d0 !! k = Some v /\ forall l, l ∈ lines -> last_field l <> k).
Proof.
  induction lines as [|l rest IH]; intros d0 k v.
  - cbn. split.
    + intros H. right. split; [done|]. intros l Hl. by apply elem_of_nil in Hl.
    + intros [(pre & l & post & E & _)|[H _]]; [|done].
      by destruct pre.
  - rewrite ondisk_loop_cons, IH. split.
    + intros [(pre & x & post & E & Hk & Hv & Hpost)|[Hd Hrest]].
      * left. exists (l :: pre), x, post. by rewrite E.
      * destruct (decide (last_field l = k)) as [Hl|Hl].
        -- left. exists [], l, rest. rewrite Hl, lookup_insert_eq in Hd.
           split_and!; [done|done|congruence|done].
        -- right. rewrite lookup_insert_ne in Hd by done. split; [done|].
           intros x [->|Hx]%elem_of_cons; auto.
    + intros [(pre & x & post & E & Hk & Hv & Hpost)|[Hd Hall]].
      * destruct pre as [|y pre]; cbn in E; injection E as -> ->.
        -- right. rewrite Hk, lookup_insert_eq. split; [congruence|done].
        -- left. by exists pre, x, post.
      * right. rewrite lookup_insert_ne.
        -- split; [done|]. intros x Hx. apply Hall. by right.
        -- apply Hall. by left.
Qed.

Lemma split_nonempty sep s : Py.split sep s <> [].
Proof.
  destruct s as [|c r]; cbn; [done|].
  destruct (Ascii.eqb c sep); [done|]. by destruct (Py.split sep r).
Qed.

Lemma query_ondisk_run env path h :
  query_ondisk env path h =
  (Returned (residency env h path), h ++ [EvPopen (dmls_cmd path)]).
Proof. reflexivity. Qed.

(** The claim C7 read on the returned map fails when two lines name the same
    path: the later line overwrites the earlier one.  Here the first line
    carries no marker, yet its path ends up resident. *)
Lemma query_ondisk_repeated_path :
  ~ (forall text l,
        l ∈ output_lines text ->
        parse_ondisk text !! last_field l = Some (has_marker l)).
Proof.
  intros H.
  specialize (H (line offline_line +:+ line regular_line) offline_line).
  assert (Hin : offline_line ∈
                output_lines (line offline_line +:+ line regular_line)).
  { vm_compute. left. }
  specialize (H Hin). vm_compute in H. discriminate H.
Qed.

(** C7 (amended). [query_ondisk] runs the listing command once and returns a
    map in which a path (the last space-delimited field of a
    newline-terminated line) is present exactly when some line names it, and
    is resident exactly when the last line naming it contains [(REG)] or
    [(DUL)]; empty output gives the empty map. *)
Theorem query_ondisk_last_line_decides env path h :
  exists d,
    query_ondisk env path h = (Returned d, h ++ [EvPopen (dmls_cmd path)]) /\
    d = parse_ondisk (os_popen_read env h (dmls_cmd path)) /\
    (forall k v,
        d !! k = Some v <->
        exists pre l post,
          output_lines (os_popen_read env h (dmls_cmd path)) = pre ++ l :: post /\
          last_field l = k /\ has_marker l = v /\
          forall l', l' ∈ post -> last_field l' <> k) /\
    (os_popen_read env h (dmls_cmd path) = EmptyString -> d = ∅).
Proof.
  exists (residency env h path). split; [apply query_ondisk_run|].
  split; [reflexivity|]. split.
  - intros k v. unfold residency, parse_ondisk. cbv zeta.
    fold (output_lines (os_popen_read env h (dmls_cmd path))).
    rewrite ondisk_loop_lookup. split.
    + intros [H|[H _]]; [done|]. by rewrite lookup_empty in H.
    + intros H. by left.
  - intros E. unfold residency. by rewrite E.
Qed.

Lemma query_ondisk_last_line_decides_witness :
  exists d,
    query_ondisk (fixed_listing (line offline_line +:+ line dual_line))
      "/archive/*.nc" [] =
    (Returned d, [EvPopen "dmls -l /archive/*.nc"]) /\
    d !! "/archive/a.nc" = Some false /\ d !! "/archive/b.nc" = Some true.
Proof.
  destruct (query_ondisk_last_line_decides
              (fixed_listing (line offline_line +:+ line dual_line))
              "/archive/*.nc" []) as (d & Hrun & Hd & Hlookup & _).
  exists d. split; [exact Hrun|]. split.
  - apply Hlookup. exists [], offline_line, [dual_line].
    split_and!; [reflexivity|reflexivity|reflexivity|].
    intros l' [->|H]%elem_of_cons; [by vm_compute|by apply elem_of_nil in H].
  - apply Hlookup. exists [offline_line], dual_line, [].
    split_and!; [reflexivity|reflexivity|reflexivity|].
    intros l' H. by apply elem_of_nil in H.
Defined.

Lemma all_true_iff (l : list bool) :
  Py.all l = true <-> forall b, b ∈ l -> b = true.
Proof.
  unfold Py.all. rewrite forallb_forall. split.
  - intros H b Hb. apply (H b). by apply list_elem_of_In.
  - intros H b Hb. apply H. by apply list_elem_of_In.
Qed.

(** [all(d.values())] holds exactly when every entry of the map is [True]. *)
Lemma all_values_iff (d : gmap string bool) :
  Py.all (values d) = true <-> forall k v, d !! k = Some v -> v = true.
Proof.
  rewrite all_true_iff. unfold values. split.
  - intros H k v Hkv. apply H. apply list_elem_of_fmap.
    exists (k, v). split; [done|]. by apply elem_of_map_to_list.
  - intros H b (kv & -> & Hkv)%list_elem_of_fmap. destruct kv as [k v].
    apply elem_of_map_to_list in Hkv. by apply (H k).
Qed.

Lemma query_all_ondisk_run env paths : forall h,
  query_all_ondisk env paths h =
  (Returned (Py.all (ondisk_flags env h paths)), h ++ dmls_events paths).
Proof.
  unfold query_all_ondisk.
  assert (Hmap : forall h,
    mapM (fun path => do d <- query_ondisk env path;
                      ret (Py.all (values d))) paths h =
    (Returned (ondisk_flags env h paths), h ++ dmls_events paths)).
  { induction paths as [|p rest IH]; intros h.
    - cbn. by rewrite app_nil_r.
    - cbn [mapM ondisk_flags dmls_events map].
      unfold bind at 1. unfold bind at 1. rewrite query_ondisk_run. cbn [ret].
      unfold bind. rewrite IH. by rewrite <- app_assoc. }
  intros h. unfold bind. by rewrite Hmap.
Qed.

Lemma ondisk_flags_lookup env paths : forall h b,
  b ∈ ondisk_flags env h paths <->
  exists i p, paths !! i = Some p /\
    b = Py.all (values (residency env (h ++ dmls_events (take i paths)) p)).
Proof.
  induction paths as [|q rest IH]; intros h b.
  - cbn. split; [by intros ?%elem_of_nil|]. by intros (i & p & ? & _).
  - cbn [ondisk_flags]. rewrite elem_of_cons, IH. split.
    + intros [->|(i & p & Hi & ->)].
      * exists 0%nat, q. cbn. by rewrite app_nil_r.
      * exists (S i), p. split; [done|]. cbn. by rewrite <- app_assoc.
    + intros ([|i] & p & Hi & ->).
      * left. cbn in Hi. injection Hi as ->. cbn. by rewrite app_nil_r.
      * right. exists i, p. split; [done|]. cbn. by rewrite <- app_assoc.
Qed.

(** C6. [query_all_ondisk] asks [query_ondisk] afresh for every group, in
    order, and answers [True] exactly when every entry of every one of the
    maps so computed is resident; one non-resident entry in any of them makes
    the answer [False]. *)
Theorem query_all_ondisk_iff_all_resident env paths h :
  exists b,
    query_all_ondisk env paths h = (Returned b, h ++ dmls_events paths) /\
    (b = true <->
     forall i p k v,
       paths !! i = Some p ->
       residency env (h ++ dmls_events (take i paths)) p !! k = Some v ->
       v = true) /\
    (forall i p k,
       paths !! i = Some p ->
       residency env (h ++ dmls_events (take i paths)) p !! k = Some false ->
       b = false).
Proof.
  exists (Py.all (ondisk_flags env h paths)).
  split; [apply query_all_ondisk_run|].
  assert (Hiff : Py.all (ondisk_flags env h paths) = true <->
    forall i p k v,
      paths !! i = Some p ->
      residency env (h ++ dmls_events (take i paths)) p !! k = Some v ->
      v = true).
  { rewrite all_true_iff. split.
    - intros H i p k v Hi Hk.
      assert (Hall : Py.all (values (residency env
                        (h ++ dmls_events (take i paths)) p)) = true).
      { apply H. apply ondisk_flags_lookup. by exists i, p. }
      rewrite all_values_iff in Hall. by apply (Hall k).
    - intros H b (i & p & Hi & ->)%ondisk_flags_lookup.
      apply all_values_iff. intros k v. by apply H. }
  split; [exact Hiff|].
  intros i p k Hi Hk.
  destruct (Py.all (ondisk_flags env h paths)) eqn:E; [|done].
  destruct Hiff as [Hiff _]. by specialize (Hiff eq_refl i p k false Hi Hk).
Qed.

Lemma query_all_ondisk_iff_all_resident_witness :
  exists b,
    query_all_ondisk (fixed_listing (line offline_line +:+ line dual_line))
      ["/archive/*.nc"] [] =
    (Returned b, [EvPopen "dmls -l /archive/*.nc"]) /\ b = false.
Proof.
  destruct (query_all_ondisk_iff_all_resident
              (fixed_listing (line offline_line +:+ line dual_line))
              ["/archive/*.nc"] []) as (b & Hrun & _ & Hfalse).
  exists b. split; [exact Hrun|].
  apply (Hfalse 0%nat "/archive/*.nc" "/archive/a.nc"); [reflexivity|].
  by vm_compute.
Defined.

(** ** Variable names *)

Lemma mem_iff x (l : list string) : Py.mem x l = true <-> x ∈ l.
Proof.
  unfold Py.mem. rewrite existsb_exists. split.
  - intros (y & Hy & ->%String.eqb_eq). by apply list_elem_of_In.
  - intros H. exists x. split; [by apply list_elem_of_In|apply String.eqb_refl].
Qed.

Lemma mem_false_iff x (l : list string) : Py.mem x l = false <-> x ∉ l.
Proof.
  rewrite <- mem_iff. destruct (Py.mem x l); split; try done.
Qed.

Lemma remove_dups_id (l : list string) : NoDup l -> remove_dups l = l.
Proof.
  induction 1 as [|x l Hx Hl IH]; [done|].
  cbn. destruct (decide_rel elem_of x l); [done|]. by rewrite IH.
Qed.

Lemma remove_dups_skip (l1 l2 : list string) x :
  x ∈ l2 -> remove_dups (l1 ++ x :: l2) = remove_dups (l1 ++ l2).
Proof.
  intros Hx. induction l1 as [|y l1 IH]; cbn.
  - by destruct (decide_rel elem_of x l2).
  - rewrite IH.
    destruct (decide_rel elem_of y (l1 ++ x :: l2)) as [H1|H1];
      destruct (decide_rel elem_of y (l1 ++ l2)) as [H2|H2]; try done.
    + exfalso. apply H2.
      apply elem_of_app in H1 as [?|[->|?]%elem_of_cons];
        apply elem_of_app; eauto.
    + exfalso. apply H1.
      apply elem_of_app in H2 as [?|?]; apply elem_of_app; eauto.
      right. by right.
Qed.

Lemma first_seen_id (l : list string) : NoDup l -> first_seen l = l.
Proof.
  intros H. unfold first_seen.
  rewrite remove_dups_id by (by rewrite reverse_Permutation).
  apply reverse_involutive.
Qed.

Lemma first_seen_skip (acc r : list string) x :
  x ∈ acc -> first_seen (acc ++ x :: r) = first_seen (acc ++ r).
Proof.
  intros Hx. unfold first_seen. f_equal.
  rewrite !reverse_app, reverse_cons, <- app_assoc. cbn.
  apply remove_dups_skip. by apply elem_of_reverse.
Qed.

(** A split with a single field is the string itself. *)
Lemma split_singleton sep s x : Py.split sep s = [x] -> x = s.
Proof.
  revert x. induction s as [|c r IH]; intros x; cbn.
  - by intros [= <-].
  - destruct (Ascii.eqb c sep).
    + intros [= <- H]. by destruct (split_nonempty sep r).
    + destruct (Py.split sep r) as [|y t] eqn:E.
      * by destruct (split_nonempty sep r).
      * intros [= <- ->]. by rewrite (IH y).
Qed.

Lemma nc_segment_varname file :
  has_nc_segment file = true -> file <> "nc" ->
  exists v, varname_of file = Some v.
Proof.
  unfold has_nc_segment, varname_of, Py.last2. intros Hmem Hne.
  destruct (Py.split "." file) as [|a [|b t]] eqn:E.
  - by destruct (split_nonempty "." file).
  - apply mem_iff in Hmem. apply list_elem_of_singleton in Hmem. subst a.
    by apply split_singleton in E.
  - cbn [rev]. destruct (rev t) as [|z u]; cbn; eauto.
    destruct u as [|z' u]; cbn; eauto.
Qed.

Lemma varnames_loop_acc files : forall acc,
  "nc" ∉ files -> NoDup acc ->
  varnames_loop files acc =
  Returned (first_seen
              (acc ++ omap varname_of (List.filter has_nc_segment files))).
Proof.
  induction files as [|file rest IH]; intros acc Hnc Hacc.
  - cbn. by rewrite app_nil_r, first_seen_id.
  - apply not_elem_of_cons in Hnc as [Hfile Hrest].
    cbn [varnames_loop List.filter].
    fold (has_nc_segment file). fold (varname_of file).
    destruct (has_nc_segment file) eqn:Hseg; cbn [negb].
    + destruct (nc_segment_varname file Hseg) as [v Hv]; [congruence|].
      rewrite Hv. cbn [omap list_omap]. rewrite Hv.
      destruct (Py.mem v acc) eqn:Hmem; cbn [negb].
      * rewrite IH by done. apply mem_iff in Hmem.
        by rewrite first_seen_skip.
      * rewrite IH.
        -- by rewrite <- app_assoc.
        -- done.
        -- apply mem_false_iff in Hmem. apply NoDup_app.
           split_and!; [done| |apply NoDup_singleton].
           intros y Hy ->%list_elem_of_singleton. done.
    + by apply IH.
Qed.

Lemma varnames_loop_raises files : forall acc,
  "nc" ∈ files -> varnames_loop files acc = Raised IndexError.
Proof.
  induction files as [|file rest IH]; intros acc Hnc.
  - by apply elem_of_nil in Hnc.
  - cbn [varnames_loop].
    destruct (decide (file = "nc")) as [->|Hne]; [reflexivity|].
    apply elem_of_cons in Hnc as [Hnc|Hnc]; [congruence|].
    destruct (negb (Py.mem "nc" (Py.split "." file))); [by apply IH|].
    fold (has_nc_segment file).
    destruct (Py.last2 (Py.split "." file)) eqn:E.
    + destruct (negb (Py.mem s acc)); by apply IH.
    + reflexivity.
Qed.

(** Every file with the [.nc] extension passes the test of the code. *)
Lemma nc_extension_is_segment file :
  has_nc_extension file = true -> has_nc_segment file = true.
Proof.
  unfold has_nc_extension, has_nc_segment. intros H. apply mem_iff.
  destruct (rev (Py.split "." file)) as [|a [|b t]] eqn:E; try done.
  apply String.eqb_eq in H. subst a.
  apply list_elem_of_In, in_rev. rewrite E. by left.
Qed.

(** On a file that has an [nc] segment but not the [.nc] extension the loop
    departs from the stated behaviour: it keeps the file and reports [nc] as
    a variable. *)
Lemma get_varnames_keeps_inner_nc :
  varnames_loop ["atmos.20000101.tas.nc.bak"] [] = Returned ["nc"] /\
  stated_varnames ["atmos.20000101.tas.nc.bak"] = [] /\
  ~ (forall files, varnames_loop files [] = Returned (stated_varnames files)).
Proof.
  split; [reflexivity|]. split; [reflexivity|].
  intros H. specialize (H ["atmos.20000101.tas.nc.bak"]). discriminate H.
Qed.

(** What [get_varnames] does on a time-series directory whose listing is
    [files]: it keeps the names that have [nc] among their dot-delimited
    segments (every name ending in [.nc] is one), takes the second-to-last
    segment of each and removes duplicates in first-seen order; a file named
    exactly [nc] makes it raise [IndexError].  The listing with [tas] twice
    and [pr] once gives [tas; pr]. *)
Theorem get_varnames_keeps_nc_segments env pp ppname verbose h
    local1 others1 local2 others2 files :
  (forall h', os_listdir env h' (Py.join "/" [pp; ppname; "ts"])
              = Some (local1 :: others1)) ->
  (forall h', os_listdir env h' (Py.join "/" [pp; ppname; "ts"; local1])
              = Some (local2 :: others2)) ->
  (forall h', os_listdir env h'
                (Py.join "/" [pp; ppname; "ts"; Py.join "/" [local1; local2]])
              = Some files) ->
  ("nc" ∉ files ->
   get_varnames env pp ppname verbose h =
   (Returned (Some (kept_varnames files)),
    h ++ [EvListdir (Py.join "/" [pp; ppname; "ts"]);
          EvListdir (Py.join "/" [pp; ppname; "ts"]);
          EvListdir (Py.join "/" [pp; ppname; "ts"; local1]);
          EvListdir (Py.join "/" [pp; ppname; "ts";
                                  Py.join "/" [local1; local2]])])) /\
  ("nc" ∈ files ->
   fst (get_varnames env pp ppname verbose h) = Raised IndexError) /\
  (forall file, has_nc_extension file = true -> has_nc_segment file = true) /\
  kept_varnames ["atmos.20000101.tas.nc"; "atmos.20000101.tas.nc";
                 "atmos.20000101.pr.nc"] = ["tas"; "pr"].
Proof.
  intros H1 H2 H3.
  assert (Hrun : get_varnames env pp ppname verbose h =
    (match varnames_loop files [] with
     | Returned vs => Returned (Some vs)
     | Raised e => Raised e
     | Diverged => Diverged
     end,
     h ++ [EvListdir (Py.join "/" [pp; ppname; "ts"]);
           EvListdir (Py.join "/" [pp; ppname; "ts"]);
           EvListdir (Py.join "/" [pp; ppname; "ts"; local1]);
           EvListdir (Py.join "/" [pp; ppname; "ts";
                                   Py.join "/" [local1; local2]])])).
  { unfold get_varnames, get_local, try_except, bind, listdir, first_entry.
    rewrite H1. cbn [ret]. rewrite H1. cbn [ret]. rewrite H2. cbn [ret].
    rewrite H3. cbn [lift ret]. rewrite <- !app_assoc. cbn [app].
    by destruct (varnames_loop files []). }
  split_and!.
  - intros Hnc. rewrite Hrun.
    rewrite (varnames_loop_acc files []) by (done || apply NoDup_nil_2).
    reflexivity.
  - intros Hnc. rewrite Hrun. by rewrite varnames_loop_raises.
  - apply nc_extension_is_segment.
  - reflexivity.
Qed.

Lemma get_varnames_keeps_nc_segments_witness :
  get_varnames (static_tree demo_tree) "/pp" "atmos" false [] =
  (Returned (Some ["tas"; "pr"]),
   [EvListdir "/pp/atmos/ts"; EvListdir "/pp/atmos/ts";
    EvListdir "/pp/atmos/ts/annual"; EvListdir "/pp/atmos/ts/annual/5yr"]).
Proof.
  refine (proj1 (get_varnames_keeps_nc_segments
            (static_tree demo_tree) "/pp" "atmos" false []
            "annual" [] "5yr" []
            ["atmos.20000101.tas.nc"; "atmos.20000101.tas.nc";
             "atmos.20000101.pr.nc"] _ _ _) _).
  - intros h'. reflexivity.
  - intros h'. reflexivity.
  - intros h'. reflexivity.
  - intros H. repeat (apply elem_of_cons in H as [H|H]; [discriminate H|]).
    by apply elem_of_nil in H.
Defined.

(** C9 (what the code does). The test for the extension is a membership
    test on the dot-delimited segments, so a backup copy
    [atmos.20000101.tas.nc.bak] beside [atmos.20000101.tas.nc] is kept and
    [get_varnames] reports [nc] as a variable, where only files with the
    [.nc] extension should count; by the same slip a file named [nc] makes
    the call raise [IndexError]. *)
Theorem get_varnames_reports_nc_as_variable :
  get_varnames (static_tree backup_tree) "/pp" "atmos" false [] =
  (Returned (Some ["tas"; "nc"]),
   [EvListdir "/pp/atmos/ts"; EvListdir "/pp/atmos/ts";
    EvListdir "/pp/atmos/ts/annual"; EvListdir "/pp/atmos/ts/annual/5yr"]) /\
  stated_varnames ["atmos.20000101.tas.nc"; "atmos.20000101.tas.nc.bak"]
  = ["tas"] /\
  has_nc_extension "atmos.20000101.tas.nc.bak" = false /\
  varnames_loop ["atmos.20000101.tas.nc"; "nc"] [] = Raised IndexError.
Proof. split_and!; reflexivity. Qed.

(** ** Looking a variable up *)

Lemma all_map {A} (f : A -> bool) l : Py.all (map f l) = forallb f l.
Proof. induction l as [|x l IH]; cbn; [done|]. by rewrite <- IH. Qed.

Lemma any_map {A} (f : A -> bool) l : Py.any (map f l) = existsb f l.
Proof. induction l as [|x l IH]; cbn; [done|]. by rewrite <- IH. Qed.

Lemma keeps_lists rq ig e :
  keeps (VList rq) (VList ig) e = Returned (passes rq ig e).
Proof.
  unfold keeps, passes. rewrite all_map, any_map.
  by destruct (forallb _ rq).
Qed.

Lemma filter_candidates_lists rq ig cands :
  filter_candidates (VList rq) (VList ig) cands =
  Returned (filtered rq ig cands).
Proof.
  induction cands as [|e rest IH]; [done|].
  cbn [filter_candidates]. rewrite keeps_lists, IH.
  unfold filtered. cbn [List.filter]. by destruct (passes rq ig e).
Qed.

Lemma find_unique_variable_run env pp variable require ignore rq ig unique
    h cands h' :
  as_list require = VList rq -> as_list ignore = VList ig ->
  find_variable env pp variable false h = (Returned (Some cands), h') ->
  find_unique_variable env pp variable require ignore unique h =
  (match filtered rq ig cands with
   | [x] => Returned (VStr x)
   | [] => Raised no_match_error
   | _ => if unique
          then Raised (ambiguous_error variable (filtered rq ig cands))
          else Returned (VList (filtered rq ig cands))
   end, h').
Proof.
  intros Hrq Hig Hfind. unfold find_unique_variable.
  rewrite (bind_returned _ _ _ _ _ Hfind), Hrq, Hig.
  unfold bind, lift. rewrite filter_candidates_lists.
  destruct (filtered rq ig cands) as [|x [|y l]]; try reflexivity.
  by destruct unique.
Qed.

(** The claim C4 as stated fails for [unique=False] and a single match: the
    code returns the match itself, not the one-element list. *)
Lemma find_unique_variable_single_match_not_list :
  ~ (forall env pp variable rq ig h cands h',
        find_variable env pp variable false h = (Returned (Some cands), h') ->
        filtered rq ig cands <> [] ->
        find_unique_variable env pp variable (VList rq) (VList ig) false h =
        (Returned (VList (filtered rq ig cands)), h')).
Proof.
  intros H.
  specialize (H (static_tree demo_tree) "/pp" "tas" [] [] [] ["atmos"]).
  specialize (H _ eq_refl). cbn in H.
  assert (Hne : ["atmos"] <> @nil string) by discriminate.
  specialize (H Hne). vm_compute in H. discriminate H.
Qed.

(** C4 (amended). Let [kept] be the candidates of [find_variable] that
    contain every required and no ignored substring.  If [kept] has one
    element, [find_unique_variable] returns that element itself, whatever
    [unique] is; if it is empty, the call fails with the no-match error,
    whatever [unique] is; if it has more than one element, the call fails
    with the ambiguity error when [unique=True] and returns the whole list
    when [unique=False]. *)
Theorem find_unique_variable_by_size env pp variable require ignore rq ig
    h cands h' :
  as_list require = VList rq -> as_list ignore = VList ig ->
  find_variable env pp variable false h = (Returned (Some cands), h') ->
  (length (filtered rq ig cands) = 1%nat ->
   exists x, filtered rq ig cands = [x] /\
     forall unique,
       find_unique_variable env pp variable require ignore unique h =
       (Returned (VStr x), h')) /\
  (length (filtered rq ig cands) = 0%nat ->
   forall unique,
     find_unique_variable env pp variable require ignore unique h =
     (Raised no_match_error, h')) /\
  ((1 < length (filtered rq ig cands))%nat ->
   find_unique_variable env pp variable require ignore true h =
   (Raised (ambiguous_error variable (filtered rq ig cands)), h') /\
   find_unique_variable env pp variable require ignore false h =
   (Returned (VList (filtered rq ig cands)), h')).
Proof.
  intros Hrq Hig Hfind.
  pose proof (fun unique => find_unique_variable_run env pp variable
                 require ignore rq ig unique h cands h' Hrq Hig Hfind) as Hrun.
  destruct (filtered rq ig cands) as [|x [|y l]] eqn:E; cbn [length].
  - split_and!; [lia| |lia]. intros _ unique. apply Hrun.
  - split_and!; [|lia|lia]. intros _. exists x. split; [done|].
    intros unique. apply Hrun.
  - split_and!; [lia|lia|]. intros _. split; apply Hrun.
Qed.

Lemma find_unique_variable_by_size_witness :
  find_unique_variable (static_tree demo_tree) "/pp" "tas"
    (VStr "atm") (VList ["ocean"]) false [] =
  (Returned (VStr "atmos"),
   [EvListdir "/pp/";
    EvListdir "/pp/atmos/ts"; EvListdir "/pp/atmos/ts";
    EvListdir "/pp/atmos/ts/annual"; EvListdir "/pp/atmos/ts/annual/5yr"]) /\
  fst (find_unique_variable (static_tree twin_tree) "/pp" "tas"
         (VList []) (VList []) true []) =
  Raised (ValueError
            ("Ambiguous request; more than one ppname" +:+
             "containing variable 'tas' satisfies" +:+
             "these constraints: ['atmos', 'atmos_month'].")) /\
  fst (find_unique_variable (static_tree twin_tree) "/pp" "tas"
         (VList []) (VList []) false []) =
  Returned (VList ["atmos"; "atmos_month"]).
Proof.
  split.
  - destruct (proj1 (find_unique_variable_by_size
                (static_tree demo_tree) "/pp" "tas"
                (VStr "atm") (VList ["ocean"]) ["atm"] ["ocean"] []
                ["atmos"] _ eq_refl eq_refl eq_refl) eq_refl)
      as (x & Hx & Hrun).
    injection Hx as <-. apply Hrun.
  - destruct (proj2 (proj2 (find_unique_variable_by_size
                (static_tree twin_tree) "/pp" "tas"
                (VList []) (VList []) [] [] [] ["atmos"; "atmos_month"] _
                eq_refl eq_refl eq_refl)) (le_n 2)) as [Htrue Hfalse].
    split; [exact (f_equal fst Htrue)|exact (f_equal fst Hfalse)].
Defined.

(** The text of a list in the ambiguity message follows [repr]: a name with
    a single quote is written in double quotes, a backslash is doubled, a
    newline is escaped. *)
Example repr_list_quotes :
  repr_list ["atmos"; "at'mos"; "a\b"] =
  "['atmos', " +:+ String dquote ("at'mos" +:+ String dquote ", 'a\\b']") /\
  repr_str nl = "'\n'" /\
  repr_str (String squote (String dquote EmptyString)) =
  String squote (String backslash (String squote
    (String dquote (String squote EmptyString)))).
Proof. split_and!; reflexivity. Qed.

(** When no component lists the variable, the loop of [find_variable]
    leaves its accumulators untouched. *)
Lemma find_loop_absent variable allvars : forall ppnames found h,
  (forall ppname vars, (ppname, vars) ∈ allvars -> variable ∉ vars) ->
  find_loop variable false allvars ppnames found h =
  (Returned (ppnames, found), h).
Proof.
  induction allvars as [|[ppname vars] rest IH]; intros ppnames found h Habs.
  - reflexivity.
  - cbn [find_loop].
    assert (Hmem : Py.mem variable vars = false).
    { apply mem_false_iff. apply (Habs ppname). by left. }
    rewrite Hmem. apply IH. intros q vs Hq. apply (Habs q). by right.
Qed.

(** C5 (what the code does). When the variable is in no component of the
    catalogue, [find_variable] prints its message and returns [None], and
    [find_unique_variable] fails on iterating over it: a [TypeError], which
    is not the designated no-match error. *)
Theorem find_unique_variable_absent_variable env pp variable require ignore
    unique h allvars h1 :
  get_allvars env pp false h = (Returned allvars, h1) ->
  (forall ppname vars, (ppname, vars) ∈ allvars -> variable ∉ vars) ->
  find_unique_variable env pp variable require ignore unique h =
  (Raised TypeError,
   h1 ++ [EvPrint ("No " +:+ variable +:+ " in this pp.") nl]) /\
  TypeError <> no_match_error.
Proof.
  intros Hall Habs. split; [|discriminate].
  unfold find_unique_variable, find_variable.
  unfold bind at 1. unfold bind at 1. rewrite Hall.
  unfold bind at 1. rewrite find_loop_absent by done.
  reflexivity.
Qed.

Lemma find_unique_variable_absent_variable_witness :
  find_unique_variable (static_tree demo_tree) "/pp" "sst"
    (VList []) (VList []) true [] =
  (Raised TypeError,
   [EvListdir "/pp/";
    EvListdir "/pp/atmos/ts"; EvListdir "/pp/atmos/ts";
    EvListdir "/pp/atmos/ts/annual"; EvListdir "/pp/atmos/ts/annual/5yr";
    EvPrint "No sst in this pp." nl]).
Proof.
  refine (proj1 (find_unique_variable_absent_variable
            (static_tree demo_tree) "/pp" "sst" (VList []) (VList []) true []
            [("atmos", ["tas"; "pr"])] _ eq_refl _)).
  intros ppname vars [[= -> ->]|H]%elem_of_cons.
  - intros H. repeat (apply elem_of_cons in H as [H|H]; [discriminate H|]).
    by apply elem_of_nil in H.
  - by apply elem_of_nil in H.
Defined.

(** ** Waiting for migration *)

Section Migration.

Variable env : Env.
Variable paths : list string.

Lemma round_assoc (h : list Event) :
  (h ++ dmls_events paths) ++ [EvSleep 1000] = h ++ poll_round paths.
Proof. unfold poll_round. by rewrite app_assoc. Qed.

Lemma rounds_succ (h : list Event) k :
  h ++ poll_rounds (S k) paths = (h ++ poll_round paths) ++ poll_rounds k paths.
Proof. cbn [poll_rounds]. by rewrite app_assoc. Qed.

Lemma wait_ondisk_succeeds n : forall fuel h,
  (forall k, (k < n)%nat ->
     fst (query_all_ondisk env paths (h ++ poll_rounds k paths))
     = Returned false) ->
  fst (query_all_ondisk env paths (h ++ poll_rounds n paths))
  = Returned true ->
  (n < fuel)%nat ->
  wait_ondisk env fuel paths h =
  (Returned tt, h ++ poll_rounds n paths ++ dmls_events paths).
Proof.
  induction n as [|n IH]; intros fuel h Hfalse Htrue Hfuel;
    destruct fuel as [|fuel]; try lia.
  - cbn [poll_rounds] in *. rewrite app_nil_r in Htrue.
    cbn [wait_ondisk]. unfold bind at 1.
    rewrite query_all_ondisk_run in *. cbn [fst] in Htrue.
    injection Htrue as ->. reflexivity.
  - cbn [wait_ondisk]. unfold bind at 1.
    pose proof (Hfalse 0%nat ltac:(lia)) as H0.
    cbn [poll_rounds] in H0. rewrite app_nil_r in H0.
    rewrite query_all_ondisk_run in H0 |- *. cbn [fst] in H0.
    injection H0 as ->.
    unfold bind, sleep, emit. rewrite round_assoc.
    rewrite (IH fuel (h ++ poll_round paths)).
    + cbn [poll_rounds]. by rewrite <- !app_assoc.
    + intros k Hk. specialize (Hfalse (S k) ltac:(lia)).
      by rewrite rounds_succ in Hfalse.
    + by rewrite rounds_succ in Htrue.
    + lia.
Qed.

Lemma wait_ondisk_returned fuel : forall h r h',
  wait_ondisk env fuel paths h = (Returned r, h') ->
  exists n, (n < fuel)%nat /\
    (forall k, (k < n)%nat ->
       fst (query_all_ondisk env paths (h ++ poll_rounds k paths))
       = Returned false) /\
    fst (query_all_ondisk env paths (h ++ poll_rounds n paths))
    = Returned true /\
    h' = h ++ poll_rounds n paths ++ dmls_events paths.
Proof.
  induction fuel as [|fuel IH]; intros h r h' Hrun; [discriminate Hrun|].
  cbn [wait_ondisk] in Hrun. unfold bind at 1 in Hrun.
  rewrite query_all_ondisk_run in Hrun.
  destruct (Py.all (ondisk_flags env h paths)) eqn:E.
  - injection Hrun as <- <-. exists 0%nat. split_and!; [lia| | |done].
    + intros k Hk. lia.
    + cbn [poll_rounds]. rewrite app_nil_r, query_all_ondisk_run.
      cbn [fst]. by rewrite E.
  - unfold bind, sleep, emit in Hrun. rewrite round_assoc in Hrun.
    destruct (IH _ _ _ Hrun) as (n & Hn & Hfalse & Htrue & ->).
    exists (S n). split_and!; [lia| | |].
    + intros [|k] Hk.
      * cbn [poll_rounds]. rewrite app_nil_r, query_all_ondisk_run.
        cbn [fst]. by rewrite E.
      * rewrite rounds_succ. apply Hfalse. lia.
    + by rewrite rounds_succ.
    + cbn [poll_rounds]. by rewrite <- !app_assoc.
Qed.

Lemma wait_ondisk_diverges fuel : forall h,
  (forall k,
     fst (query_all_ondisk env paths (h ++ poll_rounds k paths))
     = Returned false) ->
  wait_ondisk env fuel paths h = (Diverged, h ++ poll_rounds fuel paths).
Proof.
  induction fuel as [|fuel IH]; intros h Hfalse.
  - cbn. by rewrite app_nil_r.
  - cbn [wait_ondisk]. unfold bind at 1.
    pose proof (Hfalse 0%nat) as H0.
    cbn [poll_rounds] in H0. rewrite app_nil_r in H0.
    rewrite query_all_ondisk_run in *. cbn [fst] in H0. injection H0 as ->.
    unfold bind, sleep, emit. rewrite round_assoc, IH.
    + by rewrite rounds_succ.
    + intros k. specialize (Hfalse (S k)). by rewrite rounds_succ in Hfalse.
Qed.

End Migration.

(** Resolving the paths only calls [glob]. *)
Lemma expand_loop_trace env pp ppname out local time add : forall acc h,
  exists globs,
    snd (expand_loop env pp ppname out local time add acc h) = h ++ globs /\
    List.filter is_system globs = [].
Proof.
  induction add as [|v rest IH]; intros acc h.
  - exists []. cbn. by rewrite app_nil_r.
  - cbn [expand_loop]. unfold bind, glob.
    destruct (IH (acc ++ glob_glob env h
                            (get_pathspp pp ppname out local time v))
                 (h ++ [EvGlob (get_pathspp pp ppname out local time v)]))
      as (globs & Hrun & Hsys).
    exists (EvGlob (get_pathspp pp ppname out local time v) :: globs).
    rewrite Hrun. split; [by rewrite <- app_assoc|done].
Qed.

Lemma expand_paths_trace env pp ppname out local time add h :
  exists globs,
    snd (expand_paths env pp ppname out local time add h) = h ++ globs /\
    List.filter is_system globs = [].
Proof.
  destruct add as [a|l|]; cbn [expand_paths].
  - by exists [EvGlob (get_pathspp pp ppname out local time a)].
  - apply expand_loop_trace.
  - exists []. cbn. by rewrite app_nil_r.
Qed.

(** [open_frompp] in migration mode, once the paths are resolved: the
    request, the waiting loop, then the opening. *)
Lemma open_frompp_dmget_unfold env fuel pp ppname out local time add prefix
    h0 paths h1 :
  expand_paths env pp ppname out local time add h0 = (Returned paths, h1) ->
  paths <> [] ->
  open_frompp env fuel pp ppname out local time add true false prefix h0 =
  match wait_ondisk env fuel paths (requested h1 paths) with
  | (Returned _, h') =>
      (Returned (MkDataset paths),
       h' ++ [EvPrint "Migration complete." nl; EvOpenMfdataset paths])
  | (Raised e, h') => (Raised e, h')
  | (Diverged, h') => (Diverged, h')
  end.
Proof.
  intros Hexp Hne. unfold open_frompp. cbn [andb].
  rewrite (bind_returned _ _ _ _ _ Hexp).
  destruct paths as [|p rest]; [done|]. cbn [length Nat.ltb Nat.leb].
  unfold bind at 1. unfold bind at 1.
  unfold print at 1, emit. unfold bind at 1.
  unfold issue_dmget, system. unfold bind at 1.
  rewrite <- app_assoc. cbn [app]. fold (requested h1 (p :: rest)).
  destruct (wait_ondisk env fuel (p :: rest) (requested h1 (p :: rest)))
    as [[u|e|] h'] eqn:E; try reflexivity.
  unfold bind, print, emit, ret, open_mfdataset.
  by rewrite <- app_assoc.
Qed.

Lemma dmls_events_no_system paths :
  List.filter is_system (dmls_events paths) = [].
Proof. induction paths as [|p rest IH]; [done|]. cbn. apply IH. Qed.

Lemma poll_rounds_no_system n paths :
  List.filter is_system (poll_rounds n paths) = [].
Proof.
  induction n as [|n IH]; [done|].
  cbn [poll_rounds]. unfold poll_round.
  by rewrite !List.filter_app, IH, dmls_events_no_system.
Qed.

Lemma sleeps_app h1 h2 : sleeps (h1 ++ h2) = (sleeps h1 + sleeps h2)%nat.
Proof. unfold sleeps. by rewrite List.filter_app, length_app. Qed.

Lemma sleeps_dmls paths : sleeps (dmls_events paths) = 0%nat.
Proof. induction paths as [|p rest IH]; [done|]. apply IH. Qed.

Lemma sleeps_poll_rounds n paths : sleeps (poll_rounds n paths) = n.
Proof.
  induction n as [|n IH]; [done|].
  cbn [poll_rounds]. unfold poll_round.
  rewrite !sleeps_app, sleeps_dmls, IH. reflexivity.
Qed.

Lemma poll_rounds_concat n paths :
  poll_rounds n paths = concat (replicate n (poll_round paths)).
Proof. induction n as [|n IH]; [done|]. cbn. by rewrite IH. Qed.

(** The trace of the migration mode, written out. *)
Lemma polled_spelled h1 paths k :
  polled h1 paths k =
  h1 ++ [EvPrint "Issuing dmget command to migrate data to disk." " ";
         EvSystem ("dmget " +:+ Py.join " " paths +:+ " &")] ++
  concat (replicate k (map (fun p => EvPopen ("dmls -l " +:+ p)) paths ++
                       [EvSleep 1000])).
Proof.
  unfold polled, requested. rewrite poll_rounds_concat.
  by rewrite <- app_assoc.
Qed.

Lemma migrated_spelled h1 paths n :
  migrated h1 paths n =
  (h1 ++ [EvPrint "Issuing dmget command to migrate data to disk." " ";
          EvSystem ("dmget " +:+ Py.join " " paths +:+ " &")] ++
   concat (replicate n (map (fun p => EvPopen ("dmls -l " +:+ p)) paths ++
                        [EvSleep 1000]))) ++
  map (fun p => EvPopen ("dmls -l " +:+ p)) paths ++
  [EvPrint "Migration complete." nl; EvOpenMfdataset paths].
Proof. unfold migrated. by rewrite polled_spelled. Qed.

Section MigrationMode.

Variable env : Env.
Variables pp ppname out local time prefix : string.
Variable add : PyVal.
Variables h0 h1 : list Event.
Variable paths : list string.
Hypothesis Hexp :
  expand_paths env pp ppname out local time add h0 = (Returned paths, h1).
Hypothesis Hne : paths <> [].

Lemma open_frompp_dmget_run n fuel :
  (forall k, (k < n)%nat ->
     fst (query_all_ondisk env paths (polled h1 paths k)) = Returned false) ->
  fst (query_all_ondisk env paths (polled h1 paths n)) = Returned true ->
  (n < fuel)%nat ->
  open_frompp env fuel pp ppname out local time add true false prefix h0
  = (Returned (MkDataset paths), migrated h1 paths n).
Proof.
  intros Hfalse Htrue Hfuel.
  rewrite (open_frompp_dmget_unfold _ _ _ _ _ _ _ _ _ _ _ _ Hexp Hne).
  rewrite (wait_ondisk_succeeds env paths n) by done.
  unfold migrated, polled. by rewrite <- !app_assoc.
Qed.

Lemma open_frompp_dmget_returned fuel ds h' :
  open_frompp env fuel pp ppname out local time add true false prefix h0
  = (Returned ds, h') ->
  exists n, (n < fuel)%nat /\
    (forall k, (k < n)%nat ->
       fst (query_all_ondisk env paths (polled h1 paths k))
       = Returned false) /\
    fst (query_all_ondisk env paths (polled h1 paths n)) = Returned true /\
    ds = MkDataset paths /\ h' = migrated h1 paths n.
Proof.
  intros Hrun.
  rewrite (open_frompp_dmget_unfold _ _ _ _ _ _ _ _ _ _ _ _ Hexp Hne) in Hrun.
  destruct (wait_ondisk env fuel paths (requested h1 paths))
    as [[u|e|] hw] eqn:E; try discriminate Hrun.
  injection Hrun as <- <-.
  destruct (wait_ondisk_returned env paths fuel _ _ _ E)
    as (n & Hn & Hfalse & Htrue & ->).
  exists n. split_and!; try done.
  unfold migrated, polled. by rewrite <- !app_assoc.
Qed.

Lemma open_frompp_dmget_diverges :
  (forall k,
     fst (query_all_ondisk env paths (polled h1 paths k)) = Returned false) ->
  forall fuel,
    fst (open_frompp env fuel pp ppname out local time add true false
           prefix h0) = Diverged.
Proof.
  intros Hfalse fuel.
  rewrite (open_frompp_dmget_unfold _ _ _ _ _ _ _ _ _ _ _ _ Hexp Hne).
  by rewrite (wait_ondisk_diverges env paths fuel).
Qed.

Lemma migrated_one_command n :
  List.filter is_system (migrated h1 paths n) =
  List.filter is_system h0 ++
  [EvSystem ("dmget " +:+ Py.join " " paths +:+ " &")].
Proof.
  unfold migrated, polled, requested.
  destruct (expand_paths_trace env pp ppname out local time add h0)
    as (globs & Hglobs & Hsys).
  rewrite Hexp in Hglobs. cbn [snd] in Hglobs. subst h1.
  rewrite !List.filter_app, poll_rounds_no_system, dmls_events_no_system.
  rewrite Hsys. cbn. by rewrite !app_nil_r.
Qed.

End MigrationMode.

(** On the slow archive the evaluation after [k] sleeps succeeds exactly
    when [n <= k]. *)
Lemma slow_archive_query n k :
  fst (query_all_ondisk (slow_archive n) [demo_path; demo_path_pr]
         (polled [EvGlob demo_path; EvGlob demo_path_pr]
                 [demo_path; demo_path_pr] k)) =
  Returned (negb (k <? n)%nat).
Proof.
  rewrite query_all_ondisk_run. cbn [fst ondisk_flags].
  unfold residency. cbn [os_popen_read slow_archive].
  unfold polled, requested.
  rewrite !sleeps_app, sleeps_poll_rounds.
  cbn [sleeps List.filter is_sleep length Nat.add].
  rewrite Nat.add_0_r. by destruct (k <? n)%nat.
Qed.

Lemma expand_demo n :
  expand_paths (slow_archive n) "/archive/pp" "atmos" "ts" "annual/5yr"
    "2000-2004" (VList ["tas"; "pr"]) [] =
  (Returned [demo_path; demo_path_pr],
   [EvGlob demo_path; EvGlob demo_path_pr]).
Proof. reflexivity. Qed.

Lemma open_frompp_slow_archive n :
  open_frompp (slow_archive n) (S n) "/archive/pp" "atmos" "ts" "annual/5yr"
    "2000-2004" (VList ["tas"; "pr"]) true false "/vftmp/u" [] =
  (Returned (MkDataset [demo_path; demo_path_pr]),
   migrated [EvGlob demo_path; EvGlob demo_path_pr]
            [demo_path; demo_path_pr] n).
Proof.
  apply (open_frompp_dmget_run _ _ _ _ _ _ _ _ _ _ _ (expand_demo n)).
  - done.
  - intros k Hk. rewrite slow_archive_query.
    by destruct (Nat.ltb_spec k n); [|lia].
  - rewrite slow_archive_query. by rewrite Nat.ltb_irrefl.
  - lia.
Qed.

(** C1. Once the paths are resolved and not empty, [open_frompp] with
    [dmget=True] issues the one command [dmget p1 ... pk &] naming every
    resolved path, then evaluates [query_all_ondisk] on those paths again
    and again (one [dmls -l p] per path) with a sleep of one second after
    each unsuccessful evaluation, and returns after the first successful
    one: with enough fuel it returns the data set opened from the original
    paths; it returns in no other way; it never returns when no evaluation
    succeeds; the trace holds the single request and no other command.  The
    number of rounds is not bounded: for every [n] some tape system needs
    exactly [n] sleeps for two paths. *)
Theorem open_frompp_dmget_polls_until_ondisk :
  (forall env pp ppname out local time add prefix h0 paths h1,
     expand_paths env pp ppname out local time add h0 = (Returned paths, h1) ->
     paths <> [] ->
     let request := EvSystem ("dmget " +:+ Py.join " " paths +:+ " &") in
     let queries := map (fun p => EvPopen ("dmls -l " +:+ p)) paths in
     let after := fun k =>
       h1 ++ [EvPrint "Issuing dmget command to migrate data to disk." " ";
              request] ++
       concat (replicate k (queries ++ [EvSleep 1000])) in
     let finished := fun n =>
       after n ++ queries ++
       [EvPrint "Migration complete." nl; EvOpenMfdataset paths] in
     (forall n fuel,
        (forall k, (k < n)%nat ->
           fst (query_all_ondisk env paths (after k)) = Returned false) ->
        fst (query_all_ondisk env paths (after n)) = Returned true ->
        (n < fuel)%nat ->
        open_frompp env fuel pp ppname out local time add true false prefix h0
        = (Returned (MkDataset paths), finished n)) /\
     (forall fuel ds h',
        open_frompp env fuel pp ppname out local time add true false prefix h0
        = (Returned ds, h') ->
        exists n, (n < fuel)%nat /\
          (forall k, (k < n)%nat ->
             fst (query_all_ondisk env paths (after k)) = Returned false) /\
          fst (query_all_ondisk env paths (after n)) = Returned true /\
          ds = MkDataset paths /\ h' = finished n) /\
     ((forall k,
         fst (query_all_ondisk env paths (after k)) = Returned false) ->
      forall fuel,
        fst (open_frompp env fuel pp ppname out local time add true false
               prefix h0) = Diverged) /\
     (forall n,
        List.filter is_system (finished n) =
        List.filter is_system h0 ++ [request])) /\
  (forall n,
     open_frompp (slow_archive n) (S n) "/archive/pp" "atmos" "ts" "annual/5yr"
       "2000-2004" (VList ["tas"; "pr"]) true false "/vftmp/u" [] =
     (Returned (MkDataset [demo_path; demo_path_pr]),
      [EvGlob demo_path; EvGlob demo_path_pr;
       EvPrint "Issuing dmget command to migrate data to disk." " ";
       EvSystem ("dmget " +:+ demo_path +:+ " " +:+ demo_path_pr +:+ " &")] ++
      concat (replicate n [EvPopen ("dmls -l " +:+ demo_path);
                           EvPopen ("dmls -l " +:+ demo_path_pr);
                           EvSleep 1000]) ++
      [EvPopen ("dmls -l " +:+ demo_path);
       EvPopen ("dmls -l " +:+ demo_path_pr);
       EvPrint "Migration complete." nl;
       EvOpenMfdataset [demo_path; demo_path_pr]])).
Proof.
  split.
  - intros env pp ppname out local time add prefix h0 paths h1 Hexp Hne
      request queries after finished.
    assert (Hafter : forall k, after k = polled h1 paths k).
    { intros k. symmetry. apply polled_spelled. }
    assert (Hfin : forall n, finished n = migrated h1 paths n).
    { intros n. symmetry. unfold finished, after. apply migrated_spelled. }
    split_and!.
    + intros n fuel Hfalse Htrue Hfuel. rewrite Hfin.
      apply (open_frompp_dmget_run _ _ _ _ _ _ _ _ _ _ _ Hexp Hne);
        [|by rewrite <- Hafter|done].
      intros k Hk. rewrite <- Hafter. by apply Hfalse.
    + intros fuel ds h' Hrun.
      destruct (open_frompp_dmget_returned _ _ _ _ _ _ _ _ _ _ _ Hexp Hne
                  _ _ _ Hrun) as (n & Hn & Hfalse & Htrue & Hds & Hh).
      exists n. split_and!; [done| |by rewrite Hafter|done|by rewrite Hfin].
      intros k Hk. rewrite Hafter. by apply Hfalse.
    + intros Hfalse.
      apply (open_frompp_dmget_diverges _ _ _ _ _ _ _ _ _ _ _ Hexp Hne).
      intros k. rewrite <- Hafter. apply Hfalse.
    + intros n. rewrite Hfin.
      apply (migrated_one_command _ _ _ _ _ _ _ _ _ _ Hexp).
  - intros n. rewrite open_frompp_slow_archive, migrated_spelled.
    reflexivity.
Qed.

Lemma open_frompp_dmget_polls_until_ondisk_witness :
  open_frompp (slow_archive 2) 3 "/archive/pp" "atmos" "ts" "annual/5yr"
    "2000-2004" (VList ["tas"; "pr"]) true false "/vftmp/u" [] =
  (Returned (MkDataset [demo_path; demo_path_pr]),
   [EvGlob demo_path; EvGlob demo_path_pr;
    EvPrint "Issuing dmget command to migrate data to disk." " ";
    EvSystem ("dmget /archive/pp/atmos/ts/annual/5yr/atmos.2000-2004.tas.nc" +:+
              " /archive/pp/atmos/ts/annual/5yr/atmos.2000-2004.pr.nc &");
    EvPopen (dmls_cmd demo_path); EvPopen (dmls_cmd demo_path_pr);
    EvSleep 1000;
    EvPopen (dmls_cmd demo_path); EvPopen (dmls_cmd demo_path_pr);
    EvSleep 1000;
    EvPopen (dmls_cmd demo_path); EvPopen (dmls_cmd demo_path_pr);
    EvPrint "Migration complete." nl;
    EvOpenMfdataset [demo_path; demo_path_pr]]).
Proof.
  refine (proj1 (proj1 open_frompp_dmget_polls_until_ondisk
                   (slow_archive 2) "/archive/pp" "atmos" "ts" "annual/5yr"
                   "2000-2004" (VList ["tas"; "pr"]) "/vftmp/u" []
                   [demo_path; demo_path_pr]
                   [EvGlob demo_path; EvGlob demo_path_pr] eq_refl _)
            2%nat 3%nat _ _ _).
  - discriminate.
  - intros k Hk. destruct k as [|[|k]]; [reflexivity|reflexivity|lia].
  - reflexivity.
  - lia.
Defined.

(** ** Mirroring *)

Section Mirror.

Variable env : Env.
Variable prefix : string.

Lemma needs_copy_run p h :
  exists b checks,
    needs_copy env prefix p h = (Returned b, h ++ checks) /\
    List.filter is_system checks = [].
Proof.
  unfold needs_copy, bind, isfile.
  destruct (os_path_isfile env h (prefix +:+ p)); cbn [negb ret].
  - by exists false, [EvIsfile (prefix +:+ p)].
  - eexists _, [EvIsfile (prefix +:+ p); EvIsfile (prefix +:+ p +:+ ".gcp")].
    split; [|done]. by rewrite <- app_assoc.
Qed.

Lemma paths_to_copy_run path : forall h,
  exists filtered checks,
    paths_to_copy env prefix path h = (Returned filtered, h ++ checks) /\
    sublist filtered path /\
    List.filter is_system checks = [].
Proof.
  unfold paths_to_copy.
  induction path as [|p rest IH]; intros h.
  - exists [], []. cbn. by rewrite app_nil_r.
  - cbn [filterM].
    destruct (needs_copy_run p h) as (b & c1 & Hp & Hs1).
    destruct (IH (h ++ c1)) as (filtered & c2 & Hrest & Hsub & Hs2).
    rewrite (bind_returned _ _ _ _ _ Hp), (bind_returned _ _ _ _ _ Hrest).
    exists (if b then p :: filtered else filtered), (c1 ++ c2).
    cbn [ret]. split_and!.
    + by rewrite app_assoc.
    + destruct b; [by apply sublist_skip|by apply sublist_cons].
    + by rewrite List.filter_app, Hs1, Hs2.
Qed.

(** When the answers of [isfile] do not change, the filtered list holds
    exactly the paths with neither a copy nor an in-progress marker. *)
Lemma paths_to_copy_static path :
  (forall h1 h2 p, os_path_isfile env h1 p = os_path_isfile env h2 p) ->
  forall h,
  fst (paths_to_copy env prefix path h) =
  Returned (List.filter
              (fun p => negb (os_path_isfile env [] (prefix +:+ p)) &&
                        negb (os_path_isfile env [] (prefix +:+ p +:+ ".gcp")))
              path).
Proof.
  intros Hstatic. unfold paths_to_copy.
  induction path as [|p rest IH]; intros h; [done|].
  cbn [filterM List.filter].
  assert (Hp : exists h',
    needs_copy env prefix p h =
    (Returned (negb (os_path_isfile env [] (prefix +:+ p)) &&
               negb (os_path_isfile env [] (prefix +:+ p +:+ ".gcp"))), h')).
  { unfold needs_copy, bind, isfile.
    rewrite (Hstatic h [] (prefix +:+ p)).
    destruct (os_path_isfile env [] (prefix +:+ p)); cbn [negb andb ret].
    - eauto.
    - rewrite (Hstatic _ [] (prefix +:+ p +:+ ".gcp")). eauto. }
  destruct Hp as [h' Hp]. rewrite (bind_returned _ _ _ _ _ Hp).
  specialize (IH h'). unfold bind.
  destruct (filterM (needs_copy env prefix) rest h') as [[l|e|] h''];
    cbn in IH; try discriminate IH.
  injection IH as ->. reflexivity.
Qed.

Lemma missing_run path : forall h,
  mapM (fun p => do b <- isfile env p; ret (negb b)) path h =
  (Returned (missing_flags env h path), h ++ isfile_events path).
Proof.
  induction path as [|p rest IH]; intros h.
  - cbn. by rewrite app_nil_r.
  - cbn [mapM missing_flags isfile_events map].
    unfold bind at 1. unfold bind at 1. unfold isfile at 1. cbn [ret].
    unfold bind. rewrite IH. by rewrite <- app_assoc.
Qed.

Lemma isfile_events_no_system path :
  List.filter is_system (isfile_events path) = [].
Proof. induction path as [|p rest IH]; [done|]. apply IH. Qed.

(** Whatever the loop of [mirror_path] does, it issues no command. *)
Lemma wait_isfile_trace path fuel : forall h,
  exists evs,
    snd (wait_isfile env fuel path h) = h ++ evs /\
    List.filter is_system evs = [].
Proof.
  induction fuel as [|fuel IH]; intros h.
  - exists []. cbn. by rewrite app_nil_r.
  - cbn [wait_isfile]. unfold bind at 1. rewrite missing_run.
    destruct (Py.any (missing_flags env h path)).
    + unfold bind, sleep, emit.
      destruct (IH ((h ++ isfile_events path) ++ [EvSleep 1000]))
        as (evs & Hevs & Hsys).
      exists (isfile_events path ++ [EvSleep 1000] ++ evs).
      rewrite Hevs. split; [by rewrite <- !app_assoc|].
      by rewrite !List.filter_app, isfile_events_no_system, Hsys.
    + exists (isfile_events path). split; [done|].
      apply isfile_events_no_system.
Qed.

Lemma any_false_iff (l : list bool) :
  Py.any l = false <-> forall b, b ∈ l -> b = false.
Proof.
  unfold Py.any. split.
  - intros H b Hb. destruct b; [|done].
    assert (existsb id l = true); [|congruence].
    apply existsb_exists. exists true. split; [by apply list_elem_of_In|done].
  - intros H. destruct (existsb id l) eqn:E; [|done].
    apply existsb_exists in E as (b & Hb & Hid). apply list_elem_of_In in Hb.
    rewrite (H b Hb) in Hid. done.
Qed.

Lemma missing_flags_lookup path : forall h b,
  b ∈ missing_flags env h path <->
  exists i p, path !! i = Some p /\
    b = negb (os_path_isfile env (h ++ isfile_events (take i path)) p).
Proof.
  induction path as [|q rest IH]; intros h b.
  - cbn. split; [by intros ?%elem_of_nil|]. by intros (i & p & ? & _).
  - cbn [missing_flags]. rewrite elem_of_cons, IH. split.
    + intros [->|(i & p & Hi & ->)].
      * exists 0%nat, q. cbn. by rewrite app_nil_r.
      * exists (S i), p. split; [done|]. cbn. by rewrite <- app_assoc.
    + intros ([|i] & p & Hi & ->).
      * left. cbn in Hi. injection Hi as ->. cbn. by rewrite app_nil_r.
      * right. exists i, p. split; [done|]. cbn. by rewrite <- app_assoc.
Qed.

(** When the loop of [mirror_path] returns, its last evaluation found every
    path of its list on disk. *)
Lemma wait_isfile_returned path fuel : forall h r h',
  wait_isfile env fuel path h = (Returned r, h') ->
  exists hp,
    h' = hp ++ isfile_events path /\
    forall i p, path !! i = Some p ->
      os_path_isfile env (hp ++ isfile_events (take i path)) p = true.
Proof.
  induction fuel as [|fuel IH]; intros h r h' Hrun; [discriminate Hrun|].
  cbn [wait_isfile] in Hrun. unfold bind at 1 in Hrun.
  rewrite missing_run in Hrun.
  destruct (Py.any (missing_flags env h path)) eqn:E.
  - unfold bind, sleep, emit in Hrun. by apply IH in Hrun.
  - injection Hrun as <- <-. exists h. split; [done|].
    intros i p Hi. rewrite any_false_iff in E.
    specialize (E (negb (os_path_isfile env (h ++ isfile_events (take i path)) p))).
    apply negb_false_iff, E, missing_flags_lookup. by exists i, p.
Qed.

End Mirror.

(** [mirror_path] on a non-empty list, once the destination directory is
    there and the filtered list has been computed: the copy command, the
    waiting loop, the settle delay. *)
Lemma mirror_path_unfold env fuel prefix first rest h hd filtered hf :
  ensure_directory env (prefix +:+ destination_of first) h = (Returned tt, hd) ->
  paths_to_copy env prefix (first :: rest) hd = (Returned filtered, hf) ->
  mirror_path env fuel (VList (first :: rest)) prefix h =
  match wait_isfile env fuel (mirrored prefix (first :: rest))
          (hf ++ copy_issued prefix (first :: rest)) with
  | (Returned _, h') =>
      (Returned (mirrored prefix (first :: rest)), h' ++ [EvSleep 500])
  | (Raised e, h') => (Raised e, h')
  | (Diverged, h') => (Diverged, h')
  end.
Proof.
  intros Hdir Hcopy. unfold mirror_path. cbv zeta.
  rewrite (bind_returned _ _ _ _ _ Hdir), (bind_returned _ _ _ _ _ Hcopy).
  unfold bind at 1. unfold sleep at 1, emit.
  unfold bind at 1. unfold print at 1, emit.
  unfold bind at 1. unfold system at 1.
  rewrite <- !app_assoc. cbn [app]. cbn [copy_issued].
  unfold bind at 1.
  destruct (wait_isfile env fuel (mirrored prefix (first :: rest)) _)
    as [[u|e|] h'] eqn:E; reflexivity.
Qed.

(** C2. On a non-empty list whose destination directory can be ensured,
    [mirror_path] computes the filtered list [path_to_copy] (a sub-list of
    the input, decided by the two existence checks), and then issues one
    command, the [gcp] of the whole input list into the destination: the
    filtered list does not occur in it, and no other command is issued. *)
Theorem mirror_path_copies_unfiltered_list env fuel prefix first rest h hd :
  ensure_directory env (prefix +:+ destination_of first) h = (Returned tt, hd) ->
  exists filtered checks waiting,
    paths_to_copy env prefix (first :: rest) hd
    = (Returned filtered, hd ++ checks) /\
    sublist filtered (first :: rest) /\
    ((forall h1 h2 p, os_path_isfile env h1 p = os_path_isfile env h2 p) ->
     filtered =
     List.filter
       (fun p => negb (os_path_isfile env [] (prefix +:+ p)) &&
                 negb (os_path_isfile env [] (prefix +:+ p +:+ ".gcp")))
       (first :: rest)) /\
    snd (mirror_path env fuel (VList (first :: rest)) prefix h) =
    hd ++ checks ++
    [EvSleep 500;
     EvPrint ("Trying command: " +:+
              gcp_cmd prefix (destination_of first) (first :: rest)) nl;
     EvSystem ("gcp --debug " +:+ Py.join " " (first :: rest) +:+ " " +:+
               prefix +:+ destination_of first +:+ "/")] ++
    waiting /\
    List.filter is_system (checks ++ waiting) = [].
Proof.
  intros Hdir.
  destruct (paths_to_copy_run env prefix (first :: rest) hd)
    as (filtered & checks & Hcopy & Hsub & Hsys).
  rewrite (mirror_path_unfold _ fuel _ _ _ _ _ _ _ Hdir Hcopy).
  destruct (wait_isfile_trace env (mirrored prefix (first :: rest)) fuel
              ((hd ++ checks) ++ copy_issued prefix (first :: rest)))
    as (evs & Hevs & Hsys').
  destruct (wait_isfile env fuel (mirrored prefix (first :: rest)) _)
    as [[u|e|] h'] eqn:E; cbn [snd] in Hevs; subst h'.
  - exists filtered, checks, (evs ++ [EvSleep 500]). split_and!; try done.
    + intros Hstatic.
      pose proof (paths_to_copy_static env prefix (first :: rest) Hstatic hd)
        as H.
      rewrite Hcopy in H. by injection H.
    + cbn [snd copy_issued]. by rewrite <- !app_assoc.
    + rewrite !List.filter_app, Hsys, Hsys'. done.
  - exists filtered, checks, evs. split_and!; try done.
    + intros Hstatic.
      pose proof (paths_to_copy_static env prefix (first :: rest) Hstatic hd)
        as H.
      rewrite Hcopy in H. by injection H.
    + cbn [snd copy_issued]. by rewrite <- !app_assoc.
    + by rewrite !List.filter_app, Hsys, Hsys'.
  - exists filtered, checks, evs. split_and!; try done.
    + intros Hstatic.
      pose proof (paths_to_copy_static env prefix (first :: rest) Hstatic hd)
        as H.
      rewrite Hcopy in H. by injection H.
    + cbn [snd copy_issued]. by rewrite <- !app_assoc.
    + by rewrite !List.filter_app, Hsys, Hsys'.
Qed.

(** With every file already mirrored the filtered list is empty, and the
    command still names both files. *)
Lemma mirror_path_copies_unfiltered_list_witness :
  exists checks waiting,
    paths_to_copy all_mirrored "/vftmp/u" ["/archive/a.nc"; "/archive/b.nc"]
      [EvIsdir "/vftmp/u/archive"]
    = (Returned [], [EvIsdir "/vftmp/u/archive"] ++ checks) /\
    snd (mirror_path all_mirrored 1
           (VList ["/archive/a.nc"; "/archive/b.nc"]) "/vftmp/u" []) =
    [EvIsdir "/vftmp/u/archive"] ++ checks ++
    [EvSleep 500;
     EvPrint ("Trying command: " +:+
              "gcp --debug /archive/a.nc /archive/b.nc /vftmp/u/archive/") nl;
     EvSystem "gcp --debug /archive/a.nc /archive/b.nc /vftmp/u/archive/"] ++
    waiting.
Proof.
  destruct (mirror_path_copies_unfiltered_list all_mirrored 1 "/vftmp/u"
              "/archive/a.nc" ["/archive/b.nc"] []
              [EvIsdir "/vftmp/u/archive"] eq_refl)
    as (filtered & checks & waiting & Hcopy & _ & Hstatic & Htrace & _).
  exists checks, waiting.
  rewrite (Hstatic (fun _ _ _ => eq_refl)) in Hcopy.
  split; [exact Hcopy | exact Htrace].
Defined.

Lemma mirror_path_returned env fuel prefix paths h r hm :
  mirror_path env fuel (VList paths) prefix h = (Returned r, hm) ->
  r = mirrored prefix paths /\
  exists hp,
    hm = hp ++ isfile_events r ++ [EvSleep 500] /\
    forall i p, r !! i = Some p ->
      os_path_isfile env (hp ++ isfile_events (take i r)) p = true.
Proof.
  destruct paths as [|first rest]; [discriminate|].
  intros Hrun.
  destruct (ensure_directory env (prefix +:+ destination_of first) h)
    as [[[]|e|] hd] eqn:Hdir.
  - destruct (paths_to_copy_run env prefix (first :: rest) hd)
      as (filtered & checks & Hcopy & _ & _).
    rewrite (mirror_path_unfold _ fuel _ _ _ _ _ _ _ Hdir Hcopy) in Hrun.
    destruct (wait_isfile env fuel (mirrored prefix (first :: rest)) _)
      as [[u|e|] h'] eqn:E; try discriminate Hrun.
    injection Hrun as <- <-. split; [done|].
    destruct (wait_isfile_returned _ _ _ _ _ _ E) as (hp & -> & Hfiles).
    exists hp. split; [by rewrite <- app_assoc|done].
  - unfold mirror_path in Hrun. cbv zeta in Hrun.
    by rewrite (bind_raised _ _ _ _ _ Hdir) in Hrun.
  - unfold mirror_path in Hrun. cbv zeta in Hrun.
    by rewrite (bind_diverged _ _ _ _ Hdir) in Hrun.
Qed.

(** [open_frompp] in mirror mode, once the paths are resolved: the result
    of [mirror_path] is dropped and the prefixed paths are opened. *)
Lemma open_frompp_mirror_unfold env fuel pp ppname out local time add prefix
    h0 paths h1 :
  expand_paths env pp ppname out local time add h0 = (Returned paths, h1) ->
  paths <> [] ->
  open_frompp env fuel pp ppname out local time add false true prefix h0 =
  match mirror_path env fuel (VList paths) prefix (mirroring h1 prefix) with
  | (Returned _, hm) =>
      (Returned (MkDataset (prefixed prefix paths)),
       hm ++ [EvPrint "Mirroring complete." nl;
              EvOpenMfdataset (prefixed prefix paths)])
  | (Raised e, h') => (Raised e, h')
  | (Diverged, h') => (Diverged, h')
  end.
Proof.
  intros Hexp Hne. unfold open_frompp. cbn [andb].
  rewrite (bind_returned _ _ _ _ _ Hexp).
  destruct paths as [|p rest]; [done|]. cbn [length Nat.ltb Nat.leb].
  unfold bind at 1. unfold bind at 1.
  unfold print at 1, emit. fold (mirroring h1 prefix).
  unfold bind at 1.
  destruct (mirror_path env fuel (VList (p :: rest)) prefix
              (mirroring h1 prefix)) as [[r|e|] hm] eqn:E; try reflexivity.
  unfold bind, print, emit, ret, open_mfdataset. fold (prefixed prefix (p :: rest)).
  by rewrite <- app_assoc.
Qed.

Lemma open_frompp_mirror_general env fuel pp ppname out local time add prefix
    h0 paths h1 :
  expand_paths env pp ppname out local time add h0 = (Returned paths, h1) ->
  paths <> [] ->
  (forall r hm,
     mirror_path env fuel (VList paths) prefix (mirroring h1 prefix)
     = (Returned r, hm) ->
     r = mirrored prefix paths /\
     (exists hp,
        hm = hp ++ isfile_events (mirrored prefix paths) ++ [EvSleep 500] /\
        forall i p, mirrored prefix paths !! i = Some p ->
          os_path_isfile env
            (hp ++ isfile_events (take i (mirrored prefix paths))) p = true) /\
     open_frompp env fuel pp ppname out local time add false true prefix h0
     = (Returned (MkDataset (prefixed prefix paths)),
        hm ++ [EvPrint "Mirroring complete." nl;
               EvOpenMfdataset (prefixed prefix paths)])) /\
  (forall ds h',
     open_frompp env fuel pp ppname out local time add false true prefix h0
     = (Returned ds, h') ->
     ds = MkDataset (prefixed prefix paths) /\
     exists hm,
       mirror_path env fuel (VList paths) prefix (mirroring h1 prefix)
       = (Returned (mirrored prefix paths), hm)).
Proof.
  intros Hexp Hne. split.
  - intros r hm Hrun.
    destruct (mirror_path_returned _ _ _ _ _ _ _ Hrun) as (Hr & Hfiles).
    subst r. split_and!; [done|done|].
    rewrite (open_frompp_mirror_unfold _ _ _ _ _ _ _ _ _ _ _ _ Hexp Hne).
    by rewrite Hrun.
  - intros ds h' Hrun.
    rewrite (open_frompp_mirror_unfold _ _ _ _ _ _ _ _ _ _ _ _ Hexp Hne)
      in Hrun.
    destruct (mirror_path env fuel (VList paths) prefix
                (mirroring h1 prefix)) as [[r|e|] hm] eqn:E;
      try discriminate Hrun.
    destruct paths as [|p0 rest]; [done|].
    injection Hrun as <- <-. split; [done|].
    destruct (mirror_path_returned _ _ _ _ _ _ _ E) as (-> & _).
    by exists hm.
Qed.

(** C10. In mirror mode, when [mirror_path] returns it returns the list of
    [(prefix + p).replace("//", "/")] over the original paths, each of which
    its last round of [isfile] checks found on disk; [open_frompp] drops
    that list and opens the list of [prefix + p], uncollapsed; it returns in
    no other way.  With a prefix that ends in a separator the opened paths
    differ from the verified ones. *)
Theorem open_frompp_mirror_opens_uncollapsed_paths :
  (forall env fuel pp ppname out local time add prefix h0 paths h1,
     expand_paths env pp ppname out local time add h0 = (Returned paths, h1) ->
     paths <> [] ->
     let start :=
       h1 ++ [EvPrint ("Mirroring paths at '" +:+ prefix +:+ "'.") " "] in
     let checked := map (fun p => Py.replace "//" "/" (prefix +:+ p)) paths in
     let opened := map (fun p => prefix +:+ p) paths in
     (forall r hm,
        mirror_path env fuel (VList paths) prefix start = (Returned r, hm) ->
        r = checked /\
        (exists hp,
           hm = hp ++ map EvIsfile checked ++ [EvSleep 500] /\
           forall i p, checked !! i = Some p ->
             os_path_isfile env (hp ++ map EvIsfile (take i checked)) p
             = true) /\
        open_frompp env fuel pp ppname out local time add false true prefix h0
        = (Returned (MkDataset opened),
           hm ++ [EvPrint "Mirroring complete." nl;
                  EvOpenMfdataset opened])) /\
     (forall ds h',
        open_frompp env fuel pp ppname out local time add false true prefix h0
        = (Returned ds, h') ->
        ds = MkDataset opened /\
        exists hm,
          mirror_path env fuel (VList paths) prefix start
          = (Returned checked, hm))) /\
  (open_frompp mirrored_archive 1 "/archive/pp" "atmos" "ts" "annual/5yr"
     "2000-2004" (VList ["tas"; "pr"]) false true "/vftmp/u/" [] =
   (Returned (MkDataset
      ["/vftmp/u//archive/pp/atmos/ts/annual/5yr/atmos.2000-2004.tas.nc";
       "/vftmp/u//archive/pp/atmos/ts/annual/5yr/atmos.2000-2004.pr.nc"]),
    [EvGlob demo_path; EvGlob demo_path_pr;
     EvPrint "Mirroring paths at '/vftmp/u/'." " ";
     EvIsdir "/vftmp/u//archive/pp/atmos/ts/annual/5yr";
     EvIsfile "/vftmp/u//archive/pp/atmos/ts/annual/5yr/atmos.2000-2004.tas.nc";
     EvIsfile "/vftmp/u//archive/pp/atmos/ts/annual/5yr/atmos.2000-2004.pr.nc";
     EvSleep 500;
     EvPrint ("Trying command: gcp --debug " +:+ demo_path +:+ " " +:+
              demo_path_pr +:+ " /vftmp/u//archive/pp/atmos/ts/annual/5yr/")
             nl;
     EvSystem ("gcp --debug " +:+ demo_path +:+ " " +:+ demo_path_pr +:+
               " /vftmp/u//archive/pp/atmos/ts/annual/5yr/");
     EvIsfile "/vftmp/u/archive/pp/atmos/ts/annual/5yr/atmos.2000-2004.tas.nc";
     EvIsfile "/vftmp/u/archive/pp/atmos/ts/annual/5yr/atmos.2000-2004.pr.nc";
     EvSleep 500;
     EvPrint "Mirroring complete." nl;
     EvOpenMfdataset
       ["/vftmp/u//archive/pp/atmos/ts/annual/5yr/atmos.2000-2004.tas.nc";
        "/vftmp/u//archive/pp/atmos/ts/annual/5yr/atmos.2000-2004.pr.nc"]])).
Proof.
  split.
  - intros env fuel pp ppname out local time add prefix h0 paths h1 Hexp Hne
      start checked opened.
    exact (open_frompp_mirror_general env fuel pp ppname out local time add
             prefix h0 paths h1 Hexp Hne).
  - reflexivity.
Qed.

Lemma open_frompp_mirror_opens_uncollapsed_paths_witness :
  open_frompp mirrored_archive 1 "/archive/pp" "atmos" "ts" "annual/5yr"
    "2000-2004" (VList ["tas"; "pr"]) false true "/vftmp/u/" [] =
  (Returned (MkDataset
     ["/vftmp/u//archive/pp/atmos/ts/annual/5yr/atmos.2000-2004.tas.nc";
      "/vftmp/u//archive/pp/atmos/ts/annual/5yr/atmos.2000-2004.pr.nc"]),
   snd (mirror_path mirrored_archive 1 (VList [demo_path; demo_path_pr])
          "/vftmp/u/"
          [EvGlob demo_path; EvGlob demo_path_pr;
           EvPrint "Mirroring paths at '/vftmp/u/'." " "]) ++
   [EvPrint "Mirroring complete." nl;
    EvOpenMfdataset
      ["/vftmp/u//archive/pp/atmos/ts/annual/5yr/atmos.2000-2004.tas.nc";
       "/vftmp/u//archive/pp/atmos/ts/annual/5yr/atmos.2000-2004.pr.nc"]]).
Proof.
  refine (proj2 (proj2 (proj1 (proj1 open_frompp_mirror_opens_uncollapsed_paths
            mirrored_archive 1%nat "/archive/pp" "atmos" "ts" "annual/5yr"
            "2000-2004" (VList ["tas"; "pr"]) "/vftmp/u/" []
            [demo_path; demo_path_pr]
            [EvGlob demo_path; EvGlob demo_path_pr] eq_refl _)
          ["/vftmp/u/archive/pp/atmos/ts/annual/5yr/atmos.2000-2004.tas.nc";
           "/vftmp/u/archive/pp/atmos/ts/annual/5yr/atmos.2000-2004.pr.nc"]
          _ eq_refl))).
  discriminate.
Defined.

(** * Further properties of the module *)

(** ** Splitting and joining *)

Lemma split_cons_ne sep c r :
  Ascii.eqb c sep = false ->
  exists h t, Py.split sep r = h :: t /\
              Py.split sep (String c r) = String c h :: t.
Proof.
  intros Hc. cbn [Py.split]. rewrite Hc.
  destruct (Py.split sep r) as [|h t] eqn:E.
  - by destruct (split_nonempty sep r).
  - by exists h, t.
Qed.

Lemma split_cons_eq sep r :
  Py.split sep (String sep r) = EmptyString :: Py.split sep r.
Proof. cbn [Py.split]. by rewrite Ascii.eqb_refl. Qed.

(** Splitting at a separator splits the list of fields. *)
Lemma split_app_sep sep a b :
  Py.split sep (a +:+ String sep b) = Py.split sep a ++ Py.split sep b.
Proof.
  induction a as [|c a IH].
  - rewrite app_nil. by rewrite split_cons_eq.
  - rewrite app_cons. destruct (Ascii.eqb c sep) eqn:Hc.
    + apply Ascii.eqb_eq in Hc. subst c. by rewrite !split_cons_eq, IH.
    + destruct (split_cons_ne sep c a Hc) as (h & t & E1 & E2).
      destruct (split_cons_ne sep c (a +:+ String sep b) Hc)
        as (h' & t' & E1' & E2').
      rewrite E2, E2'. rewrite IH, E1 in E1'. cbn in E1'.
      by injection E1' as <- <-.
Qed.

Lemma split_no_sep sep s : has_char sep s = false -> Py.split sep s = [s].
Proof.
  induction s as [|c r IH]; [done|].
  cbn [has_char]. intros [Hc Hr]%orb_false_elim.
  destruct (split_cons_ne sep c r Hc) as (h & t & E1 & E2).
  rewrite E2. rewrite (IH Hr) in E1. by injection E1 as <- <-.
Qed.

Lemma split_fields sep s :
  Forall (fun f => has_char sep f = false) (Py.split sep s).
Proof.
  induction s as [|c r IH]; [by repeat constructor|].
  destruct (Ascii.eqb c sep) eqn:Hc.
  - apply Ascii.eqb_eq in Hc. subst c. rewrite split_cons_eq.
    by constructor.
  - destruct (split_cons_ne sep c r Hc) as (h & t & E1 & E2).
    rewrite E2. rewrite E1 in IH. apply Forall_cons in IH as [Hh Ht].
    constructor; [|done]. cbn [has_char]. by rewrite Hc.
Qed.

Lemma join_cons_char sep c h t :
  Py.join sep (String c h :: t) = String c (Py.join sep (h :: t)).
Proof. destruct t; reflexivity. Qed.

(** Splitting and joining again gives the string back. *)
Lemma join_split sep s :
  Py.join (String sep EmptyString) (Py.split sep s) = s.
Proof.
  induction s as [|c r IH]; [done|].
  destruct (Ascii.eqb c sep) eqn:Hc.
  - apply Ascii.eqb_eq in Hc. subst c. rewrite split_cons_eq.
    destruct (Py.split sep r) as [|h t] eqn:E.
    + by destruct (split_nonempty sep r).
    + rewrite join_cons, IH. reflexivity.
  - destruct (split_cons_ne sep c r Hc) as (h & t & E1 & E2).
    rewrite E2, join_cons_char. by rewrite <- E1, IH.
Qed.

Lemma join_snoc sep (l : list string) x :
  l <> [] -> Py.join sep (l ++ [x]) = Py.join sep l +:+ sep +:+ x.
Proof.
  induction l as [|y l IH]; [done|]. intros _.
  destruct l as [|z l].
  - reflexivity.
  - cbn [app]. rewrite join_cons. cbn [app] in IH. rewrite IH by done.
    rewrite join_cons. by rewrite !append_assoc.
Qed.

Lemma last_snoc {A} (l : list A) x d : List.last (l ++ [x]) d = x.
Proof. induction l as [|y [|z l] IH]; try done. Qed.

Lemma removelast_snoc {A} (l : list A) x : removelast (l ++ [x]) = l.
Proof.
  induction l as [|y l IH]; [done|].
  cbn [app removelast]. destruct (l ++ [x]) eqn:E.
  - by destruct l.
  - by rewrite IH.
Qed.

(** The fields of a string: all but the last, and the last. *)
Lemma split_snoc sep s :
  exists init base,
    Py.split sep s = init ++ [base] /\ has_char sep base = false.
Proof.
  pose proof (split_fields sep s) as Hf.
  pose proof (app_removelast_last EmptyString (split_nonempty sep s)) as E.
  exists (removelast (Py.split sep s)),
         (List.last (Py.split sep s) EmptyString).
  split; [done|]. rewrite E in Hf.
  apply Forall_app in Hf as [_ Hh]. by inversion_clear Hh.
Qed.

(** A string is its directory part, a separator and its last field; the
    directory part is empty when there is no separator. *)
Lemma split_last_decompose sep s :
  exists base,
    List.last (Py.split sep s) EmptyString = base /\
    has_char sep base = false /\
    (has_char sep s = false /\ s = base /\
       Py.butlast (Py.split sep s) = [] \/
     has_char sep s = true /\
       s = Py.join (String sep EmptyString) (Py.butlast (Py.split sep s))
           +:+ String sep EmptyString +:+ base).
Proof.
  destruct (split_snoc sep s) as (init & base & E & Hbase).
  exists base. unfold Py.butlast. rewrite E, last_snoc, removelast_snoc.
  split_and!; [done|done|].
  pose proof (join_split sep s) as Hjoin. rewrite E in Hjoin.
  destruct init as [|i init].
  - left. cbn in Hjoin. subst s. done.
  - right. rewrite join_snoc in Hjoin by done. split; [|done].
    rewrite <- Hjoin. clear.
    induction (Py.join (String sep EmptyString) (i :: init)) as [|c r IH].
    + rewrite app_nil, app_cons. cbn [has_char].
      by rewrite Ascii.eqb_refl.
    + rewrite app_cons. cbn [has_char]. by rewrite IH, orb_true_r.
Qed.

(** ** Names and directories *)

(** X1. [query_is1x1deg] answers [True] exactly for the name [1x1deg]
    itself and for the names that end in [_1x1deg]. *)
Theorem query_is1x1deg_iff ppname :
  query_is1x1deg ppname = true <->
  ppname = "1x1deg" \/ exists pre, ppname = pre +:+ "_1x1deg".
Proof.
  unfold query_is1x1deg. rewrite String.eqb_eq. split.
  - intros Hlast.
    destruct (split_last_decompose "_" ppname)
      as (base & Hbase & _ & [(_ & Hs & _)|(_ & Hs)]).
    + left. congruence.
    + right. eexists. rewrite Hs at 1. by rewrite <- Hbase, Hlast.
  - intros [->|[pre ->]]; [reflexivity|].
    change "_1x1deg" with (String "_" "1x1deg").
    rewrite split_app_sep. change (Py.split "_" "1x1deg") with ["1x1deg"].
    apply last_snoc.
Qed.

(** X2. The destination directory that [mirror_path] derives from the
    first path is that path without its last segment: the path is the
    destination, a separator and a segment without separator; a path
    without separator has the empty destination. *)
Theorem destination_of_parent first :
  exists base,
    has_char "/" base = false /\
    (has_char "/" first = false /\ destination_of first = EmptyString /\
       first = base \/
     has_char "/" first = true /\
       first = destination_of first +:+ "/" +:+ base).
Proof.
  destruct (split_last_decompose "/" first)
    as (base & _ & Hbase & [(Hno & Hs & Hinit)|(Hyes & Hs)]).
  - exists base. split; [done|]. left. unfold destination_of.
    by rewrite Hinit.
  - exists base. split; [done|]. by right.
Qed.

Lemma split_join_pair sep a b :
  has_char sep a = false ->
  exists t, Py.split sep (Py.join (String sep EmptyString) [a; b]) = a :: t.
Proof.
  intros Ha. rewrite join_cons, join_one, app_cons, app_nil.
  rewrite split_app_sep, (split_no_sep sep a Ha). by eexists.
Qed.

(** X3. On a directory tree that does not change, [get_timefrequency]
    returns the first entry of the [ts] directory of the component, provided
    that entry and the next level have a first entry. *)
Theorem get_timefrequency_first_entry env pp ppname h
    local1 others1 local2 others2 :
  (forall h', os_listdir env h' (Py.join "/" [pp; ppname; "ts"])
              = Some (local1 :: others1)) ->
  (forall h', os_listdir env h' (Py.join "/" [pp; ppname; "ts"; local1])
              = Some (local2 :: others2)) ->
  has_char "/" local1 = false ->
  get_timefrequency env pp ppname h =
  (Returned local1,
   h ++ [EvListdir (Py.join "/" [pp; ppname; "ts"]);
         EvListdir (Py.join "/" [pp; ppname; "ts"; local1])]).
Proof.
  intros H1 H2 Hl1.
  unfold get_timefrequency, get_local, bind, listdir, first_entry.
  rewrite H1. cbn [ret]. rewrite H2. cbn [ret].
  destruct (split_join_pair "/" local1 local2 Hl1) as [t ->].
  by rewrite <- app_assoc.
Qed.

Lemma get_timefrequency_first_entry_witness :
  get_timefrequency (static_tree demo_tree) "/pp" "atmos" [] =
  (Returned "annual",
   [EvListdir "/pp/atmos/ts"; EvListdir "/pp/atmos/ts/annual"]).
Proof.
  refine (get_timefrequency_first_entry (static_tree demo_tree) "/pp" "atmos"
            [] "annual" [] "5yr" [] _ _ _).
  - intros h'. reflexivity.
  - intros h'. reflexivity.
  - reflexivity.
Defined.

(** ** Reading the listing *)

Lemma removelast_cons {A} (x : A) l : l <> [] ->
  removelast (x :: l) = x :: removelast l.
Proof. by destruct l. Qed.

Lemma output_lines_unlines ls tail :
  Forall (fun l => has_char "010" l = false) ls ->
  has_char "010" tail = false ->
  output_lines (unlines ls +:+ tail) = ls.
Proof.
  intros Hls Htail. unfold output_lines, Py.butlast.
  induction Hls as [|l rest Hl Hrest IH].
  - cbn [unlines]. by rewrite app_nil, (split_no_sep _ _ Htail).
  - cbn [unlines]. unfold nl. rewrite !append_assoc, app_cons, app_nil.
    rewrite split_app_sep, (split_no_sep _ _ Hl). cbn [app].
    rewrite removelast_cons by apply split_nonempty. by rewrite IH.
Qed.

(** X4. [query_ondisk] reads the newline-terminated lines of the listing
    exactly as they were written, and ignores what follows the last
    newline: an unterminated last line is not classified. *)
Theorem parse_ondisk_ignores_unterminated ls tail :
  Forall (fun l => has_char "010" l = false) ls ->
  has_char "010" tail = false ->
  output_lines (unlines ls +:+ tail) = ls /\
  parse_ondisk (unlines ls +:+ tail) = parse_ondisk (unlines ls).
Proof.
  intros Hls Htail. split; [by apply output_lines_unlines|].
  unfold parse_ondisk. cbv zeta.
  fold (output_lines (unlines ls +:+ tail)). fold (output_lines (unlines ls)).
  rewrite output_lines_unlines by done.
  rewrite <- (output_lines_unlines ls EmptyString) at 1 by done.
  f_equal. f_equal. clear. induction (unlines ls) as [|c r IH]; [done|].
  by rewrite app_cons, IH.
Qed.

Lemma parse_ondisk_ignores_unterminated_witness :
  output_lines (unlines [offline_line] +:+ regular_line) = [offline_line] /\
  parse_ondisk (unlines [offline_line] +:+ regular_line) !! "/archive/a.nc"
  = Some false.
Proof.
  destruct (parse_ondisk_ignores_unterminated [offline_line] regular_line)
    as [Hlines Hparse].
  - repeat constructor.
  - reflexivity.
  - split; [exact Hlines|]. rewrite Hparse. reflexivity.
Defined.

(** ** Collapsing separators *)

Lemma collapse_length_upto n : forall s,
  (String.length s <= n)%nat ->
  (String.length (collapse s) <= String.length s)%nat /\
  (has_double s = true ->
   (String.length (collapse s) < String.length s)%nat).
Proof.
  induction n as [|n IH]; intros s Hn.
  - destruct s; [by split|cbn in Hn; lia].
  - destruct s as [|c r]; [by split|]. cbn in Hn.
    rewrite collapse_cons, has_double_cons.
    destruct (Ascii.eqb slash c && starts_slash r) eqn:E; cbn [orb].
    + destruct r as [|d r']; [by rewrite andb_false_r in E|]. cbn in Hn.
      destruct (IH r' ltac:(lia)) as [Hle _]. cbn [String.length]. lia.
    + destruct (IH r ltac:(lia)) as [Hle Hlt]. cbn [String.length].
      split; [lia|]. intros Hd. specialize (Hlt Hd). lia.
Qed.

Lemma collapse_no_double s : has_double s = false -> collapse s = s.
Proof.
  induction s as [|c r IH]; [done|].
  rewrite has_double_cons, collapse_cons.
  intros [-> Hr]%orb_false_elim. by rewrite IH.
Qed.

(** The pass changes a string exactly when it has a doubled separator. *)
Lemma collapse_fixed s : collapse s = s <-> has_double s = false.
Proof.
  split; [|apply collapse_no_double].
  intros Hfix. destruct (has_double s) eqn:E; [|done].
  destruct (collapse_length_upto (String.length s) s ltac:(lia)) as [_ Hlt].
  specialize (Hlt E). rewrite Hfix in Hlt. lia.
Qed.

Lemma starts_slash_app a c b :
  Ascii.eqb slash c = false ->
  starts_slash (a +:+ String c b) = starts_slash a.
Proof. intros Hc. destruct a; [by rewrite app_nil; cbn|done]. Qed.

(** A character other than the separator cuts the pass in two. *)
Lemma collapse_cut_upto n : forall a c b,
  (String.length a <= n)%nat -> Ascii.eqb slash c = false ->
  collapse (a +:+ String c b) = collapse a +:+ String c (collapse b).
Proof.
  induction n as [|n IH]; intros a c b Hn Hc.
  - destruct a; [|cbn in Hn; lia]. rewrite app_nil, collapse_cons, Hc.
    reflexivity.
  - destruct a as [|x a]; [rewrite app_nil, collapse_cons, Hc; reflexivity|].
    cbn in Hn. rewrite app_cons, !collapse_cons, starts_slash_app by done.
    destruct (Ascii.eqb slash x && starts_slash a) eqn:E.
    + destruct a as [|d a']; [by rewrite andb_false_r in E|].
      cbn in Hn. rewrite !app_cons, IH by (done || lia). reflexivity.
    + rewrite app_cons, IH by (done || lia). reflexivity.
Qed.

Lemma collapse_cut a c b :
  Ascii.eqb slash c = false ->
  collapse (a +:+ String c b) = collapse a +:+ String c (collapse b).
Proof. by apply (collapse_cut_upto (String.length a)). Qed.

Lemma ends_slash_false s :
  ends_slash s = false ->
  s = EmptyString \/
  exists q d, s = q +:+ String d EmptyString /\ Ascii.eqb slash d = false.
Proof.
  induction s as [|c r IH]; [by left|]. intros H. right.
  destruct r as [|d r'].
  - exists EmptyString, c. by rewrite app_nil.
  - destruct (IH H) as [|(q & e & -> & He)]; [done|].
    exists (String c q), e. by rewrite app_cons.
Qed.

Lemma collapse_after_root pp :
  ends_slash pp = false ->
  collapse (pp +:+ "//") = collapse (pp +:+ "/").
Proof.
  intros [->|(q & d & -> & Hd)]%ends_slash_false; [reflexivity|].
  rewrite !append_assoc, !app_cons, !app_nil.
  by rewrite !collapse_cut.
Qed.

(** X5. [get_pathspp] returns the plain join of its segments exactly when
    that join has no doubled separator. *)
Theorem get_pathspp_plain_join_iff pp ppname out local time add :
  get_pathspp pp ppname out local time add =
  Py.join "/" [pp; ppname; out; local; Py.join "." [ppname; time; add; "nc"]]
  <->
  has_double
    (Py.join "/" [pp; ppname; out; local;
                  Py.join "." [ppname; time; add; "nc"]]) = false.
Proof.
  unfold get_pathspp. cbv zeta.
  change (Py.replace "//" "/" ?s) with (collapse s).
  apply collapse_fixed.
Qed.

(** X6. A separator at the end of the root makes no difference to
    [get_pathspp]: for a root that does not end with one and a component
    name that does not begin with one, adding it gives the same path. *)
Theorem get_pathspp_root_trailing_separator pp ppname out local time add :
  ends_slash pp = false ->
  nonempty ppname = true -> starts_slash ppname = false ->
  get_pathspp (pp +:+ "/") ppname out local time add =
  get_pathspp pp ppname out local time add.
Proof.
  intros Hpp Hne Hstart. destruct ppname as [|c p']; [done|].
  cbn [starts_slash] in Hstart.
  unfold get_pathspp. cbv zeta.
  change (Py.replace "//" "/" ?s) with (collapse s).
  rewrite !(join_cons "/" _ (String c p')).
  set (rest := Py.join "/" (String c p' :: _)).
  assert (Hrest : exists r, rest = String c r).
  { unfold rest. rewrite join_cons, app_cons. by eexists. }
  destruct Hrest as [r ->].
  replace ((pp +:+ "/") +:+ "/" +:+ String c r)
    with ((pp +:+ "//") +:+ String c r) by (by rewrite !append_assoc).
  replace (pp +:+ "/" +:+ String c r)
    with ((pp +:+ "/") +:+ String c r) by (by rewrite append_assoc).
  rewrite (collapse_cut (pp +:+ "//") c r) by done.
  rewrite (collapse_cut (pp +:+ "/") c r) by done.
  f_equal. by apply collapse_after_root.
Qed.

Lemma get_pathspp_root_trailing_separator_witness :
  get_pathspp "/archive/pp/" "atmos" "ts" "annual/5yr" "2000-2004" "tas" =
  get_pathspp "/archive/pp" "atmos" "ts" "annual/5yr" "2000-2004" "tas".
Proof.
  apply (get_pathspp_root_trailing_separator
           "/archive/pp" "atmos" "ts" "annual/5yr" "2000-2004" "tas");
    reflexivity.
Defined.

Lemma has_double_after_slash a b :
  ends_slash a = true -> has_double (a +:+ String slash b) = true.
Proof.
  induction a as [|c r IH]; [done|].
  destruct r as [|d r'].
  - cbn [ends_slash]. intros Hc. rewrite app_cons, app_nil, has_double_cons.
    cbn [starts_slash]. by rewrite Hc, Ascii.eqb_refl.
  - intros H. rewrite app_cons, has_double_cons, IH by done.
    apply orb_true_r.
Qed.

(** X7. [get_pathstatic] does not collapse separators: for a root that
    ends with a separator its result has a doubled one. *)
Theorem get_pathstatic_keeps_doubled_separator pp ppname :
  ends_slash pp = true -> has_double (get_pathstatic pp ppname) = true.
Proof.
  intros Hpp. unfold get_pathstatic. cbv zeta.
  rewrite join_cons. change "/" with (String slash EmptyString).
  rewrite app_cons, app_nil. by apply has_double_after_slash.
Qed.

Lemma get_pathstatic_keeps_doubled_separator_witness :
  get_pathstatic "/archive/pp/" "atmos" = "/archive/pp//atmos/atmos.static.nc"
  /\ has_double (get_pathstatic "/archive/pp/" "atmos") = true.
Proof.
  split; [reflexivity|].
  by apply (get_pathstatic_keeps_doubled_separator "/archive/pp/" "atmos").
Defined.

Lemma has_double_app a b :
  has_double (a +:+ b) =
  has_double a || has_double b || ends_slash a && starts_slash b.
Proof.
  induction a as [|c r IH]; [by rewrite app_nil, orb_false_r|].
  rewrite app_cons, (has_double_cons c), (has_double_cons c r), IH.
  destruct r as [|d r'].
  - rewrite app_nil. cbn [starts_slash ends_slash].
    change (has_double EmptyString) with false.
    rewrite andb_false_r. cbn [orb].
    by destruct (Ascii.eqb slash c), (starts_slash b), (has_double b).
  - rewrite app_cons. cbn [starts_slash ends_slash].
    by rewrite !orb_assoc.
Qed.

(** X8. In mirror mode the paths that [open_frompp] opens are the ones
    [mirror_path] checked exactly when no prefix-and-path string has a
    doubled separator: neither the prefix nor a path has one, and the
    prefix does not end with a separator where a path begins with one. *)
Theorem prefixed_eq_mirrored_iff prefix paths :
  prefixed prefix paths = mirrored prefix paths <->
  forall p, p ∈ paths ->
    has_double prefix = false /\ has_double p = false /\
    ends_slash prefix && starts_slash p = false.
Proof.
  unfold prefixed, mirrored.
  change (fun p => Py.replace "//" "/" (prefix +:+ p))
    with (fun p => collapse (prefix +:+ p)).
  induction paths as [|q rest IH].
  - split; [|done]. intros _ p Hp. by apply elem_of_nil in Hp.
  - cbn [map]. split.
    + intros [= Hq Hrest] p [->|Hp]%elem_of_cons.
      * symmetry in Hq. apply collapse_fixed in Hq.
        rewrite has_double_app in Hq.
        apply orb_false_elim in Hq as [[? ?]%orb_false_elim ?]. done.
      * apply IH; done.
    + intros H. f_equal.
      * symmetry. apply collapse_fixed. rewrite has_double_app.
        destruct (H q) as (-> & -> & ->); [by left|done].
      * apply IH. intros p Hp. apply H. by right.
Qed.

(** ** Resolving and opening *)

Lemma expand_loop_static env pp ppname out local time add :
  (forall h1 h2 p, glob_glob env h1 p = glob_glob env h2 p) ->
  forall acc h,
  expand_loop env pp ppname out local time add acc h =
  (Returned
     (acc ++ concat (map (fun v => glob_glob env []
                                     (get_pathspp pp ppname out local time v))
                         add)),
   h ++ map (fun v => EvGlob (get_pathspp pp ppname out local time v)) add).
Proof.
  intros Hstatic. induction add as [|v rest IH]; intros acc h.
  - cbn. by rewrite !app_nil_r.
  - cbn [expand_loop map concat]. unfold bind, glob. rewrite IH.
    rewrite (Hstatic h []). by rewrite <- !app_assoc.
Qed.

(** X9. With a list of suffixes [open_frompp] resolves one pattern per
    suffix, in the order of the list, and concatenates the matches in that
    order (for a [glob] whose answers do not change meanwhile); a single
    string is resolved like the one-element list. *)
Theorem expand_paths_in_order env pp ppname out local time :
  (forall h1 h2 p, glob_glob env h1 p = glob_glob env h2 p) ->
  (forall add h,
     expand_paths env pp ppname out local time (VList add) h =
     (Returned
        (concat (map (fun v => glob_glob env []
                                  (get_pathspp pp ppname out local time v))
                     add)),
      h ++ map (fun v => EvGlob (get_pathspp pp ppname out local time v))
               add)) /\
  (forall a h,
     expand_paths env pp ppname out local time (VStr a) h =
     expand_paths env pp ppname out local time (VList [a]) h).
Proof.
  intros Hstatic. split.
  - intros add h. cbn [expand_paths]. by rewrite expand_loop_static.
  - intros a h. cbn [expand_paths]. rewrite expand_loop_static by done.
    cbn. unfold glob. by rewrite (Hstatic h []), app_nil_r.
Qed.

Lemma expand_paths_in_order_witness :
  expand_paths all_mirrored "/archive/pp" "atmos" "ts" "annual/5yr"
    "2000-2004" (VList ["tas"; "pr"]) [] =
  (Returned [demo_path; demo_path],
   [EvGlob "/archive/pp/atmos/ts/annual/5yr/atmos.2000-2004.tas.nc";
    EvGlob "/archive/pp/atmos/ts/annual/5yr/atmos.2000-2004.pr.nc"]).
Proof.
  apply (proj1 (expand_paths_in_order all_mirrored "/archive/pp" "atmos" "ts"
                  "annual/5yr" "2000-2004" (fun _ _ _ => eq_refl))
           ["tas"; "pr"] []).
Defined.

(** X10. When the patterns match nothing, [open_frompp] issues no
    request, copies nothing and waits for nothing, whatever mode is asked
    for: right after resolving it calls [open_mfdataset] on the empty list,
    which raises [OSError].  When neither mode is asked for and something
    matched, it opens the resolved paths as they are, without a command. *)
Theorem open_frompp_without_migration env fuel pp ppname out local time add
    dmget mirror prefix h0 paths h1 :
  expand_paths env pp ppname out local time add h0 = (Returned paths, h1) ->
  dmget && mirror = false ->
  (paths = [] ->
   open_frompp env fuel pp ppname out local time add dmget mirror prefix h0 =
   (Raised OSError, h1 ++ [EvOpenMfdataset []])) /\
  (dmget = false -> mirror = false -> paths <> [] ->
   open_frompp env fuel pp ppname out local time add dmget mirror prefix h0 =
   (Returned (MkDataset paths), h1 ++ [EvOpenMfdataset paths])).
Proof.
  intros Hexp Hboth. unfold open_frompp. rewrite Hboth.
  rewrite (bind_returned _ _ _ _ _ Hexp). split.
  - intros ->. reflexivity.
  - intros -> -> Hne. destruct paths as [|p rest]; [done|]. reflexivity.
Qed.

Lemma open_frompp_without_migration_witness :
  open_frompp (static_tree demo_tree) 0 "/archive/pp" "atmos" "ts"
    "annual/5yr" "2000-2004" (VStr "tas") true false "/vftmp/u" [] =
  (Raised OSError,
   [EvGlob "/archive/pp/atmos/ts/annual/5yr/atmos.2000-2004.tas.nc";
    EvOpenMfdataset []]) /\
  open_frompp mirrored_archive 0 "/archive/pp" "atmos" "ts"
    "annual/5yr" "2000-2004" (VStr "tas") false false "/vftmp/u" [] =
  (Returned (MkDataset [demo_path]),
   [EvGlob demo_path; EvOpenMfdataset [demo_path]]).
Proof.
  split.
  - apply (proj1 (open_frompp_without_migration (static_tree demo_tree) 0
             "/archive/pp" "atmos" "ts" "annual/5yr" "2000-2004" (VStr "tas")
             true false "/vftmp/u" [] []
             [EvGlob "/archive/pp/atmos/ts/annual/5yr/atmos.2000-2004.tas.nc"]
             eq_refl eq_refl)).
    reflexivity.
  - apply (proj2 (open_frompp_without_migration mirrored_archive 0
             "/archive/pp" "atmos" "ts" "annual/5yr" "2000-2004" (VStr "tas")
             false false "/vftmp/u" [] [demo_path] [EvGlob demo_path]
             eq_refl eq_refl)); [reflexivity|reflexivity|discriminate].
Defined.

(** ** Waiting for the copies *)

Section Copies.

Variable env : Env.
Variable path : list string.

Lemma file_round_assoc (h : list Event) :
  (h ++ isfile_events path) ++ [EvSleep 1000] = h ++ file_round path.
Proof. unfold file_round. by rewrite app_assoc. Qed.

Lemma file_rounds_succ (h : list Event) k :
  h ++ file_rounds (S k) path = (h ++ file_round path) ++ file_rounds k path.
Proof. cbn [file_rounds]. by rewrite app_assoc. Qed.

Lemma wait_isfile_succeeds n : forall fuel h,
  (forall k, (k < n)%nat ->
     Py.any (missing_flags env (h ++ file_rounds k path) path) = true) ->
  Py.any (missing_flags env (h ++ file_rounds n path) path) = false ->
  (n < fuel)%nat ->
  wait_isfile env fuel path h =
  (Returned tt, h ++ file_rounds n path ++ isfile_events path).
Proof.
  induction n as [|n IH]; intros fuel h Hmiss Hthere Hfuel;
    destruct fuel as [|fuel]; try lia.
  - cbn [file_rounds] in *. rewrite app_nil_r in Hthere.
    cbn [wait_isfile]. unfold bind at 1. by rewrite missing_run, Hthere.
  - cbn [wait_isfile]. unfold bind at 1. rewrite missing_run.
    pose proof (Hmiss 0%nat ltac:(lia)) as H0.
    cbn [file_rounds] in H0. rewrite app_nil_r in H0. rewrite H0.
    unfold bind, sleep, emit. rewrite file_round_assoc.
    rewrite (IH fuel (h ++ file_round path)).
    + cbn [file_rounds]. by rewrite <- !app_assoc.
    + intros k Hk. specialize (Hmiss (S k) ltac:(lia)).
      by rewrite file_rounds_succ in Hmiss.
    + by rewrite file_rounds_succ in Hthere.
    + lia.
Qed.

Lemma wait_isfile_diverges fuel : forall h,
  (forall k,
     Py.any (missing_flags env (h ++ file_rounds k path) path) = true) ->
  wait_isfile env fuel path h = (Diverged, h ++ file_rounds fuel path).
Proof.
  induction fuel as [|fuel IH]; intros h Hmiss.
  - cbn. by rewrite app_nil_r.
  - cbn [wait_isfile]. unfold bind at 1. rewrite missing_run.
    pose proof (Hmiss 0%nat) as H0.
    cbn [file_rounds] in H0. rewrite app_nil_r in H0. rewrite H0.
    unfold bind, sleep, emit. rewrite file_round_assoc, IH.
    + by rewrite file_rounds_succ.
    + intros k. specialize (Hmiss (S k)).
      by rewrite file_rounds_succ in Hmiss.
Qed.

End Copies.

(** X11. After the copy command [mirror_path] checks all destination
    paths, sleeps one second when one is missing and checks again; once the
    destination directory is ensured and the filtering done, it returns the
    destination paths after the first round that finds them all, followed
    by a half-second sleep; when some path stays missing it never
    returns. *)
Theorem mirror_path_waits_for_copies env prefix first rest h hd filtered hf :
  ensure_directory env (prefix +:+ destination_of first) h = (Returned tt, hd) ->
  paths_to_copy env prefix (first :: rest) hd = (Returned filtered, hf) ->
  (forall n fuel,
     (forall k, (k < n)%nat ->
        Py.any (missing_flags env
                  ((hf ++ copy_issued prefix (first :: rest)) ++
                   file_rounds k (mirrored prefix (first :: rest)))
                  (mirrored prefix (first :: rest))) = true) ->
     Py.any (missing_flags env
               ((hf ++ copy_issued prefix (first :: rest)) ++
                file_rounds n (mirrored prefix (first :: rest)))
               (mirrored prefix (first :: rest))) = false ->
     (n < fuel)%nat ->
     mirror_path env fuel (VList (first :: rest)) prefix h =
     (Returned (mirrored prefix (first :: rest)),
      hf ++ copy_issued prefix (first :: rest) ++
      file_rounds n (mirrored prefix (first :: rest)) ++
      isfile_events (mirrored prefix (first :: rest)) ++ [EvSleep 500])) /\
  ((forall k,
      Py.any (missing_flags env
                ((hf ++ copy_issued prefix (first :: rest)) ++
                 file_rounds k (mirrored prefix (first :: rest)))
                (mirrored prefix (first :: rest))) = true) ->
   forall fuel,
     fst (mirror_path env fuel (VList (first :: rest)) prefix h) = Diverged).
Proof.
  intros Hdir Hcopy. split.
  - intros n fuel Hmiss Hthere Hfuel.
    rewrite (mirror_path_unfold _ fuel _ _ _ _ _ _ _ Hdir Hcopy).
    rewrite (wait_isfile_succeeds env _ n) by done.
    by rewrite <- !app_assoc.
  - intros Hmiss fuel.
    rewrite (mirror_path_unfold _ fuel _ _ _ _ _ _ _ Hdir Hcopy).
    by rewrite (wait_isfile_diverges env _ fuel).
Qed.

Lemma mirror_path_waits_for_copies_witness :
  mirror_path (slow_copy 2) 2 (VStr "/archive/a.nc") "/vftmp/u" [] =
  (Returned ["/vftmp/u/archive/a.nc"],
   [EvIsdir "/vftmp/u/archive";
    EvIsfile "/vftmp/u/archive/a.nc"; EvIsfile "/vftmp/u/archive/a.nc.gcp";
    EvSleep 500;
    EvPrint "Trying command: gcp --debug /archive/a.nc /vftmp/u/archive/" nl;
    EvSystem "gcp --debug /archive/a.nc /vftmp/u/archive/";
    EvIsfile "/vftmp/u/archive/a.nc"; EvSleep 1000;
    EvIsfile "/vftmp/u/archive/a.nc"; EvSleep 500]).
Proof.
  refine (proj1 (mirror_path_waits_for_copies (slow_copy 2) "/vftmp/u"
                   "/archive/a.nc" [] [] [EvIsdir "/vftmp/u/archive"]
                   ["/archive/a.nc"]
                   [EvIsdir "/vftmp/u/archive";
                    EvIsfile "/vftmp/u/archive/a.nc";
                    EvIsfile "/vftmp/u/archive/a.nc.gcp"]
                   eq_refl eq_refl) 1%nat 2%nat _ _ _).
  - intros k Hk. destruct k as [|k]; [reflexivity|lia].
  - reflexivity.
  - lia.
Defined.

(** X12. [mirror_path] fails before any copy is attempted, and without a
    command, on an empty list ([IndexError] from [path[0]], before any
    interaction), on an argument that is neither a string nor a list
    ([ValueError], before any interaction), and when the destination
    directory is missing and cannot be created ([OSError]); a string is
    handled as the one-element list. *)
Theorem mirror_path_fails_before_copying env fuel prefix h :
  mirror_path env fuel (VList []) prefix h = (Raised IndexError, h) /\
  mirror_path env fuel VNone prefix h =
  (Raised (ValueError "path must be str or list of str."), h) /\
  (forall first rest,
     os_path_isdir env h (prefix +:+ destination_of first) = false ->
     os_makedirs env (h ++ [EvIsdir (prefix +:+ destination_of first)])
       (prefix +:+ destination_of first) = false ->
     mirror_path env fuel (VList (first :: rest)) prefix h =
     (Raised OSError,
      h ++ [EvIsdir (prefix +:+ destination_of first);
            EvMakedirs (prefix +:+ destination_of first)])) /\
  (forall s,
     mirror_path env fuel (VStr s) prefix h =
     mirror_path env fuel (VList [s]) prefix h).
Proof.
  split_and!; try reflexivity.
  intros first rest Hisdir Hmk. unfold mirror_path. cbv zeta.
  rewrite (bind_raised _ _ h OSError
             (h ++ [EvIsdir (prefix +:+ destination_of first);
                    EvMakedirs (prefix +:+ destination_of first)])); [done|].
  unfold ensure_directory, bind, isdir, makedirs.
  rewrite Hisdir. cbn [negb]. rewrite Hmk. by rewrite <- app_assoc.
Qed.

Lemma mirror_path_fails_before_copying_witness :
  mirror_path readonly_scratch 1 (VList ["/archive/a.nc"]) "/vftmp/u" [] =
  (Raised OSError,
   [EvIsdir "/vftmp/u/archive"; EvMakedirs "/vftmp/u/archive"]).
Proof.
  apply (proj1 (proj2 (proj2 (mirror_path_fails_before_copying
                                readonly_scratch 1 "/vftmp/u" [])))
           "/archive/a.nc" []); reflexivity.
Defined.

(** ** The catalogue *)

Lemma bind_returned_inv {A B} (m : M A) (k : A -> M B) h b h' :
  bind m k h = (Returned b, h') ->
  exists a h1, m h = (Returned a, h1) /\ k a h1 = (Returned b, h').
Proof.
  unfold bind. destruct (m h) as [[a|e|] h1]; try discriminate. eauto.
Qed.

(** X13. [get_varnames] answers [None] when the [ts] directory of the
    component cannot be listed or is empty (after a message when
    [verbose]); but when that directory has an entry and the level below it
    is empty, the [IndexError] is not caught and escapes. *)
Theorem get_varnames_missing_levels env pp ppname verbose h :
  (os_listdir env h (Py.join "/" [pp; ppname; "ts"]) = None \/
   os_listdir env h (Py.join "/" [pp; ppname; "ts"]) = Some [] ->
   get_varnames env pp ppname verbose h =
   (Returned None,
    h ++ EvListdir (Py.join "/" [pp; ppname; "ts"]) ::
         (if verbose
          then [EvPrint ("No ts directory in " +:+ ppname +:+
                         ". Can't retrieve variables.") nl]
          else []))) /\
  (forall local1 others1,
     (forall h', os_listdir env h' (Py.join "/" [pp; ppname; "ts"])
                 = Some (local1 :: others1)) ->
     (forall h', os_listdir env h' (Py.join "/" [pp; ppname; "ts"; local1])
                 = Some []) ->
     fst (get_varnames env pp ppname verbose h) = Raised IndexError).
Proof.
  split.
  - intros [H|H]; unfold get_varnames, try_except, bind, listdir, first_entry;
      rewrite H; destruct verbose; cbn; by rewrite <- ?app_assoc.
  - intros local1 others1 H1 H2.
    unfold get_varnames, get_local, try_except, bind, listdir, first_entry.
    rewrite H1. cbn [ret]. rewrite H1. cbn [ret]. by rewrite H2.
Qed.

Lemma get_varnames_missing_levels_witness :
  get_varnames (static_tree demo_tree) "/pp" "ocean" false [] =
  (Returned None, [EvListdir "/pp/ocean/ts"]) /\
  fst (get_varnames (static_tree hollow_tree) "/pp" "atmos" false []) =
  Raised IndexError.
Proof.
  split.
  - apply (proj1 (get_varnames_missing_levels
                    (static_tree demo_tree) "/pp" "ocean" false [])).
    by left.
  - apply (proj2 (get_varnames_missing_levels
                    (static_tree hollow_tree) "/pp" "atmos" false [])
             "annual" []); intros h'; reflexivity.
Defined.

Lemma varnames_loop_invariant files : forall acc r,
  varnames_loop files acc = Returned r ->
  NoDup acc ->
  NoDup r /\
  forall v, v ∈ r ->
    v ∈ acc \/
    exists file, file ∈ files /\ has_nc_segment file = true /\
                 varname_of file = Some v.
Proof.
  induction files as [|file rest IH]; intros acc r Hrun Hacc.
  - injection Hrun as <-. split; [done|]. by left.
  - cbn [varnames_loop] in Hrun.
    fold (has_nc_segment file) in Hrun. fold (varname_of file) in Hrun.
    destruct (has_nc_segment file) eqn:Hseg; cbn [negb] in Hrun.
    + destruct (varname_of file) as [name|] eqn:Hname; [|discriminate].
      destruct (Py.mem name acc) eqn:Hmem; cbn [negb] in Hrun.
      * destruct (IH _ _ Hrun Hacc) as [Hnd Hfrom]. split; [done|].
        intros v Hv. destruct (Hfrom v Hv) as [?|(f & Hf & ? & ?)]; [by left|].
        right. exists f. split; [by right|done].
      * apply mem_false_iff in Hmem.
        assert (Hacc' : NoDup (acc ++ [name])).
        { apply NoDup_app. split_and!; [done| |apply NoDup_singleton].
          intros y Hy ->%list_elem_of_singleton. done. }
        destruct (IH _ _ Hrun Hacc') as [Hnd Hfrom]. split; [done|].
        intros v Hv.
        destruct (Hfrom v Hv) as [[?| ->%list_elem_of_singleton]%elem_of_app
                                  |(f & Hf & ? & ?)].
        -- by left.
        -- right. exists file. split; [by left|done].
        -- right. exists f. split; [by right|done].
    + destruct (IH _ _ Hrun Hacc) as [Hnd Hfrom]. split; [done|].
      intros v Hv. destruct (Hfrom v Hv) as [?|(f & Hf & ? & ?)]; [by left|].
      right. exists f. split; [by right|done].
Qed.

(** A successful [get_varnames] listed the [ts] directory of the
    component, found the layout with [get_local], and last of all listed the
    directory of that layout; its result is the loop over that listing. *)
Lemma get_varnames_some_inv env pp ppname verbose h vs h' :
  get_varnames env pp ppname verbose h = (Returned (Some vs), h') ->
  exists local h2 files,
    get_local env pp ppname "ts"
      (h ++ [EvListdir (Py.join "/" [pp; ppname; "ts"])])
    = (Returned local, h2) /\
    os_listdir env h2 (Py.join "/" [pp; ppname; "ts"; local]) = Some files /\
    h' = h2 ++ [EvListdir (Py.join "/" [pp; ppname; "ts"; local])] /\
    varnames_loop files [] = Returned vs.
Proof.
  unfold get_varnames. intros Hrun.
  apply bind_returned_inv in Hrun as (valid & h1 & Htry & Hrun).
  destruct valid; [|discriminate Hrun].
  assert (Hh1 : h1 = h ++ [EvListdir (Py.join "/" [pp; ppname; "ts"])]).
  { unfold try_except, bind, listdir, first_entry in Htry.
    destruct (os_listdir env h (Py.join "/" [pp; ppname; "ts"]))
      as [[|x l]|]; cbn in Htry.
    - destruct verbose; discriminate Htry.
    - by injection Htry.
    - destruct verbose; discriminate Htry. }
  subst h1.
  apply bind_returned_inv in Hrun as (local & h2 & Hlocal & Hrun).
  apply bind_returned_inv in Hrun as (files & h3 & Hls & Hrun).
  apply bind_returned_inv in Hrun as (allvars & h4 & Hloop & Hrun).
  injection Hrun as -> ->. unfold lift in Hloop. injection Hloop as Hloop ->.
  unfold listdir in Hls.
  destruct (os_listdir env h2 _) as [l|] eqn:E; [|discriminate Hls].
  injection Hls as -> <-. by exists local, h2, files.
Qed.

(** X14. Whatever the directory holds, a list returned by [get_varnames]
    has no duplicates, and each of its names is the second-to-last
    dot-delimited segment of a file that has an [nc] segment, in the
    listing of [pp/ppname/ts/<layout>] that the call made last, where
    [<layout>] is what [get_local] returned after the first listing of
    [pp/ppname/ts]. *)
Theorem get_varnames_distinct_from_files env pp ppname verbose h vs h' :
  get_varnames env pp ppname verbose h = (Returned (Some vs), h') ->
  NoDup vs /\
  exists local h2 files,
    get_local env pp ppname "ts"
      (h ++ [EvListdir (Py.join "/" [pp; ppname; "ts"])])
    = (Returned local, h2) /\
    os_listdir env h2 (Py.join "/" [pp; ppname; "ts"; local]) = Some files /\
    h' = h2 ++ [EvListdir (Py.join "/" [pp; ppname; "ts"; local])] /\
    forall v, v ∈ vs ->
      exists file, file ∈ files /\ has_nc_segment file = true /\
                   varname_of file = Some v.
Proof.
  intros (local & h2 & files & Hlocal & Hls & Hh & Hloop)%get_varnames_some_inv.
  destruct (varnames_loop_invariant files [] vs Hloop (NoDup_nil_2))
    as [Hnd Hfrom].
  split; [done|]. exists local, h2, files. split_and!; [done|done|done|].
  intros v Hv. destruct (Hfrom v Hv) as [H|H]; [|done].
  by apply elem_of_nil in H.
Qed.

Lemma get_varnames_distinct_from_files_witness :
  NoDup ["tas"; "pr"] /\
  exists local h2 files,
    get_local (static_tree demo_tree) "/pp" "atmos" "ts"
      ([] ++ [EvListdir (Py.join "/" ["/pp"; "atmos"; "ts"])])
    = (Returned local, h2) /\
    os_listdir (static_tree demo_tree) h2
      (Py.join "/" ["/pp"; "atmos"; "ts"; local]) = Some files /\
    [EvListdir "/pp/atmos/ts"; EvListdir "/pp/atmos/ts";
     EvListdir "/pp/atmos/ts/annual"; EvListdir "/pp/atmos/ts/annual/5yr"]
    = h2 ++ [EvListdir (Py.join "/" ["/pp"; "atmos"; "ts"; local])] /\
    forall v, v ∈ ["tas"; "pr"] ->
      exists file, file ∈ files /\ has_nc_segment file = true /\
                   varname_of file = Some v.
Proof.
  exact (get_varnames_distinct_from_files (static_tree demo_tree)
           "/pp" "atmos" false [] ["tas"; "pr"] _ eq_refl).
Defined.

Lemma dict_set_keys {V} k (v : V) d :
  map fst (dict_set k v d) =
  if bool_decide (k ∈ map fst d) then map fst d else map fst d ++ [k].
Proof.
  induction d as [|[k' v'] d IH]; [done|].
  cbn [dict_set]. destruct (String.eqb k k') eqn:E.
  - apply String.eqb_eq in E. subst k'. cbn [map fst].
    rewrite bool_decide_eq_true_2; [done|by left].
  - apply String.eqb_neq in E. cbn [map fst]. rewrite IH.
    destruct (bool_decide (k ∈ map fst d)) eqn:Hd.
    + apply bool_decide_eq_true_1 in Hd.
      rewrite bool_decide_eq_true_2; [done|by right].
    + apply bool_decide_eq_false_1 in Hd.
      rewrite bool_decide_eq_false_2; [done|].
      intros [?|?]%elem_of_cons; done.
Qed.

Lemma dict_set_entries {V} k (v : V) d kv :
  kv ∈ dict_set k v d -> kv = (k, v) \/ kv ∈ d.
Proof.
  induction d as [|[k' v'] d IH]; cbn [dict_set].
  - intros ->%list_elem_of_singleton. by left.
  - destruct (String.eqb k k').
    + intros [->|?]%elem_of_cons; [by left|]. right. by right.
    + intros [->|H]%elem_of_cons; [right; by left|].
      destruct (IH H); [by left|]. right. by right.
Qed.

Lemma dict_set_nodup {V} k (v : V) d :
  NoDup (map fst d) -> NoDup (map fst (dict_set k v d)).
Proof.
  intros Hd. rewrite dict_set_keys.
  destruct (bool_decide (k ∈ map fst d)) eqn:E; [done|].
  apply bool_decide_eq_false_1 in E.
  apply NoDup_app. split_and!; [done| |apply NoDup_singleton].
  intros y Hy ->%list_elem_of_singleton. done.
Qed.

Lemma allvars_loop_invariant env pp verbose ppnames : forall acc h r h',
  allvars_loop env pp verbose ppnames acc h = (Returned r, h') ->
  NoDup (map fst acc) -> Forall (fun kv => NoDup (snd kv)) acc ->
  NoDup (map fst r) /\
  Forall (fun kv => NoDup (snd kv)) r /\
  forall k, k ∈ map fst r -> k ∈ map fst acc \/ k ∈ ppnames.
Proof.
  induction ppnames as [|ppname rest IH]; intros acc h r h' Hrun Hacc Hvals.
  - injection Hrun as <- _. split_and!; [done|done|]. by left.
  - cbn [allvars_loop] in Hrun.
    apply bind_returned_inv in Hrun as (varnames & h1 & Hvar & Hrun).
    destruct varnames as [vs|].
    + apply get_varnames_some_inv
        in Hvar as (local & h2 & files & _ & _ & _ & Hloop).
      destruct (varnames_loop_invariant files [] vs Hloop (NoDup_nil_2))
        as [Hvs _].
      assert (Hvals' : Forall (fun kv => NoDup (snd kv))
                         (dict_set ppname vs acc)).
      { apply Forall_forall. intros kv [->|Hkv]%dict_set_entries; [done|].
        by apply (proj1 (Forall_forall _ _) Hvals). }
      destruct (IH _ _ _ _ Hrun (dict_set_nodup _ _ _ Hacc) Hvals')
        as (Hnd & Hv & Hkeys).
      split_and!; [done|done|]. intros k Hk.
      destruct (Hkeys k Hk) as [Hin|Hin]; [|right; by right].
      rewrite dict_set_keys in Hin.
      destruct (bool_decide (ppname ∈ map fst acc)); [by left|].
      apply elem_of_app in Hin as [?| ->%list_elem_of_singleton];
        [by left|right; by left].
    + destruct (IH _ _ _ _ Hrun Hacc Hvals) as (Hnd & Hv & Hkeys).
      split_and!; [done|done|]. intros k Hk.
      destruct (Hkeys k Hk) as [?|?]; [by left|right; by right].
Qed.

(** X15. A catalogue returned by [get_allvars] has pairwise distinct
    component names, all of them entries of the listing of the pp
    directory, and every variable list in it is free of duplicates. *)
Theorem get_allvars_catalogue_invariant env pp verbose h allvars h' :
  get_allvars env pp verbose h = (Returned allvars, h') ->
  NoDup (map fst allvars) /\
  Forall (fun kv => NoDup (snd kv)) allvars /\
  exists ppnames,
    os_listdir env h (pp +:+ "/") = Some ppnames /\
    forall k, k ∈ map fst allvars -> k ∈ ppnames.
Proof.
  unfold get_allvars, get_ppnames. intros Hrun.
  apply bind_returned_inv in Hrun as (ppnames & h1 & Hls & Hrun).
  unfold listdir in Hls.
  destruct (os_listdir env h (pp +:+ "/")) as [l|] eqn:E; [|discriminate Hls].
  injection Hls as -> _.
  destruct (allvars_loop_invariant _ _ _ _ _ _ _ _ Hrun (NoDup_nil_2)
              (Forall_nil_2 _)) as (Hnd & Hv & Hkeys).
  split_and!; [done|done|]. exists ppnames. split; [done|].
  intros k Hk. destruct (Hkeys k Hk) as [H|H]; [|done].
  by apply elem_of_nil in H.
Qed.

Lemma get_allvars_catalogue_invariant_witness :
  NoDup (map fst [("atmos", ["tas"; "pr"])]) /\
  Forall (fun kv : string * list string => NoDup (snd kv))
    [("atmos", ["tas"; "pr"])] /\
  exists ppnames,
    os_listdir (static_tree demo_tree) [] ("/pp" +:+ "/") = Some ppnames /\
    forall k, k ∈ map fst [("atmos", ["tas"; "pr"])] -> k ∈ ppnames.
Proof.
  exact (get_allvars_catalogue_invariant (static_tree demo_tree) "/pp" false
           [] [("atmos", ["tas"; "pr"])] _ eq_refl).
Defined.

Lemma find_loop_value variable verbose allvars : forall ppnames found h,
  fst (find_loop variable verbose allvars ppnames found h) =
  Returned (ppnames ++ components_with variable allvars,
            found || existsb (fun kv => Py.mem variable (snd kv)) allvars).
Proof.
  induction allvars as [|[ppname vars] rest IH]; intros ppnames found h.
  - cbn. by rewrite app_nil_r, orb_false_r.
  - cbn [find_loop]. unfold components_with.
    cbn [List.filter existsb snd].
    destruct (Py.mem variable vars) eqn:Hmem.
    + unfold bind.
      destruct verbose; cbn [print emit ret]; rewrite IH;
        unfold components_with; cbn [map fst];
        by rewrite <- app_assoc, orb_true_r.
    + rewrite IH. by cbn [orb].
Qed.

Lemma components_with_nil variable allvars :
  existsb (fun kv => Py.mem variable (snd kv)) allvars = false <->
  components_with variable allvars = [].
Proof.
  unfold components_with.
  induction allvars as [|kv rest IH]; [done|].
  cbn [existsb List.filter]. destruct (Py.mem variable (snd kv)); cbn.
  - split; discriminate.
  - exact IH.
Qed.

Lemma find_variable_value env pp variable verbose h allvars h1 :
  get_allvars env pp verbose h = (Returned allvars, h1) ->
  fst (find_variable env pp variable verbose h) =
  Returned (match components_with variable allvars with
            | [] => None
            | hits => Some hits
            end).
Proof.
  intros Hall.
  unfold find_variable. rewrite (bind_returned _ _ _ _ _ Hall).
  unfold bind at 1.
  pose proof (find_loop_value variable verbose allvars [] false h1) as Hloop.
  destruct (find_loop variable verbose allvars [] false h1)
    as [[r|e|] h2]; cbn [fst] in Hloop; try discriminate Hloop.
  injection Hloop as ->. cbn [fst snd orb app].
  destruct (existsb _ allvars) eqn:E.
  - destruct (components_with variable allvars) eqn:Ec; [|done].
    apply components_with_nil in Ec. congruence.
  - apply components_with_nil in E. by rewrite E.
Qed.

(** X16. [find_variable] returns the components of the catalogue that list
    the variable, in the order of the catalogue, when there is at least
    one, and [None] otherwise: never an empty list. *)
Theorem find_variable_hits_or_none env pp variable verbose h allvars h1 :
  get_allvars env pp verbose h = (Returned allvars, h1) ->
  fst (find_variable env pp variable verbose h) =
  Returned (match components_with variable allvars with
            | [] => None
            | hits => Some hits
            end) /\
  fst (find_variable env pp variable verbose h) <> Returned (Some []).
Proof.
  intros Hall.
  pose proof (find_variable_value env pp variable verbose h allvars h1 Hall)
    as Hval.
  split; [exact Hval|]. rewrite Hval.
  by destruct (components_with variable allvars).
Qed.

Lemma find_variable_hits_or_none_witness :
  fst (find_variable (static_tree demo_tree) "/pp" "tas" false []) =
  Returned (Some ["atmos"]).
Proof.
  exact (proj1 (find_variable_hits_or_none (static_tree demo_tree) "/pp"
                  "tas" false [] [("atmos", ["tas"; "pr"])] _ eq_refl)).
Defined.

(** X17. What [find_unique_variable] returns satisfies the constraints:
    every returned component is a candidate of [find_variable], contains
    every required substring and none of the ignored ones; a returned list
    has at least two elements and is only returned with [unique=False]. *)
Theorem find_unique_variable_sound env pp variable require ignore rq ig
    unique h cands h' r :
  as_list require = VList rq -> as_list ignore = VList ig ->
  find_variable env pp variable false h = (Returned (Some cands), h') ->
  fst (find_unique_variable env pp variable require ignore unique h)
  = Returned r ->
  (forall x, r = VStr x \/ (exists l, r = VList l /\ x ∈ l) ->
     x ∈ cands /\
     (forall q, q ∈ rq -> Py.contains q x = true) /\
     (forall s, s ∈ ig -> Py.contains s x = false)) /\
  r <> VNone /\
  (forall l, r = VList l -> unique = false /\ (1 < length l)%nat).
Proof.
  intros Hrq Hig Hfind Hrun.
  rewrite (find_unique_variable_run _ _ _ _ _ _ _ _ _ _ _ Hrq Hig Hfind)
    in Hrun. cbn [fst] in Hrun.
  assert (Hkept : forall x, x ∈ filtered rq ig cands ->
            x ∈ cands /\
            (forall q, q ∈ rq -> Py.contains q x = true) /\
            (forall s, s ∈ ig -> Py.contains s x = false)).
  { intros x Hx. apply list_elem_of_In, filter_In in Hx as [Hin Hpass].
    apply list_elem_of_In in Hin. split; [done|].
    unfold passes in Hpass.
    apply andb_true_iff in Hpass as [Hall Hnone]. split.
    - intros q Hq. rewrite forallb_forall in Hall.
      apply Hall. by apply list_elem_of_In.
    - intros s0 Hs. apply negb_true_iff in Hnone.
      destruct (Py.contains s0 x) eqn:E; [|done].
      assert (existsb (fun s => Py.contains s x) ig = true); [|congruence].
      apply existsb_exists. exists s0. split; [by apply list_elem_of_In|done]. }
  destruct (filtered rq ig cands) as [|x [|y l]] eqn:E.
  - discriminate Hrun.
  - injection Hrun as <-. split_and!; [|done|done].
    intros x0 [[= <-]|(l & Hl & _)]; [|discriminate Hl].
    apply Hkept. by left.
  - destruct unique; [discriminate Hrun|]. injection Hrun as <-.
    split_and!; [|done|].
    + intros x0 [Hx|(l0 & [= <-] & Hin)]; [discriminate Hx|]. by apply Hkept.
    + intros l0 [= <-]. split; [done|]. cbn. lia.
Qed.

Lemma find_unique_variable_sound_witness :
  (forall x, VStr "atmos" = VStr x \/
             (exists l, VStr "atmos" = VList l /\ x ∈ l) ->
     x ∈ ["atmos"] /\
     (forall q, q ∈ ["atm"] -> Py.contains q x = true) /\
     (forall s, s ∈ ["ocean"] -> Py.contains s x = false)) /\
  VStr "atmos" <> VNone /\
  (forall l, VStr "atmos" = VList l -> false = false /\ (1 < length l)%nat).
Proof.
  exact (find_unique_variable_sound (static_tree demo_tree) "/pp" "tas"
           (VStr "atm") (VList ["ocean"]) ["atm"] ["ocean"] false []
           ["atmos"] _ (VStr "atmos") eq_refl eq_refl eq_refl eq_refl).
Defined.

(** ** What the catalogue functions can raise *)

Lemma bind_raised_inv {A B} (m : M A) (k : A -> M B) h e h' :
  bind m k h = (Raised e, h') ->
  m h = (Raised e, h') \/
  exists a h1, m h = (Returned a, h1) /\ k a h1 = (Raised e, h').
Proof.
  unfold bind. destruct (m h) as [[a|e0|] h1] eqn:E; try discriminate.
  - intros H. right. by exists a, h1.
  - intros [= -> ->]. by left.
Qed.

Lemma listdir_raises env p h e h' :
  listdir env p h = (Raised e, h') -> listing_error e.
Proof.
  unfold listdir. destruct (os_listdir env h p); [discriminate|].
  intros [= <- _]. by left.
Qed.

Lemma first_entry_raises l h e h' :
  first_entry l h = (Raised e, h') -> listing_error e.
Proof. destruct l; [|discriminate]. intros [= <- _]. by right. Qed.

Lemma get_local_raises env pp ppname out h e h' :
  get_local env pp ppname out h = (Raised e, h') -> listing_error e.
Proof.
  unfold get_local. intros H.
  apply bind_raised_inv in H as [H|(l1 & h1 & _ & H)];
    [by apply listdir_raises in H|].
  apply bind_raised_inv in H as [H|(x1 & h2 & _ & H)];
    [by apply first_entry_raises in H|].
  apply bind_raised_inv in H as [H|(l2 & h3 & _ & H)];
    [by apply listdir_raises in H|].
  apply bind_raised_inv in H as [H|(x2 & h4 & _ & H)];
    [by apply first_entry_raises in H|].
  discriminate H.
Qed.

Lemma varnames_loop_raises_index files : forall acc e,
  varnames_loop files acc = Raised e -> e = IndexError.
Proof.
  induction files as [|file rest IH]; intros acc e H; [discriminate H|].
  cbn [varnames_loop] in H.
  destruct (negb (Py.mem "nc" (Py.split "." file))); [by apply IH in H|].
  destruct (Py.last2 (Py.split "." file)); [|by injection H].
  destruct (negb (Py.mem s acc)); by apply IH in H.
Qed.

Lemma get_varnames_raises env pp ppname verbose h e h' :
  get_varnames env pp ppname verbose h = (Raised e, h') -> listing_error e.
Proof.
  unfold get_varnames. intros H.
  apply bind_raised_inv in H as [H|(valid & h1 & _ & H)].
  - unfold try_except in H.
    destruct (bind (listdir env _) _ h) as [[b|e0|] h0]; try discriminate H.
    unfold bind in H. destruct verbose; discriminate H.
  - destruct valid; [|discriminate H].
    apply bind_raised_inv in H as [H|(local & h2 & _ & H)];
      [by apply get_local_raises in H|].
    apply bind_raised_inv in H as [H|(files & h3 & _ & H)];
      [by apply listdir_raises in H|].
    apply bind_raised_inv in H as [H|(vs & h4 & _ & H)]; [|discriminate H].
    unfold lift in H. injection H as H _. right.
    by apply varnames_loop_raises_index in H.
Qed.

Lemma allvars_loop_raises env pp verbose ppnames : forall acc h e h',
  allvars_loop env pp verbose ppnames acc h = (Raised e, h') ->
  listing_error e.
Proof.
  induction ppnames as [|ppname rest IH]; intros acc h e h' H;
    [discriminate H|].
  cbn [allvars_loop] in H.
  apply bind_raised_inv in H as [H|(varnames & h1 & _ & H)];
    [by apply get_varnames_raises in H|].
  destruct varnames; by apply IH in H.
Qed.

Lemma find_variable_raises env pp variable verbose h e h' :
  find_variable env pp variable verbose h = (Raised e, h') ->
  listing_error e.
Proof.
  unfold find_variable, get_allvars, get_ppnames. intros H.
  apply bind_raised_inv in H as [H|(allvars & h1 & _ & H)].
  - apply bind_raised_inv in H as [H|(ppnames & h0 & _ & H)];
      [by apply listdir_raises in H|by apply allvars_loop_raises in H].
  - apply bind_raised_inv in H as [H|(r & h2 & _ & H)].
    + pose proof (find_loop_value variable verbose allvars [] false h1) as Hv.
      rewrite H in Hv. discriminate Hv.
    + destruct (snd r); [discriminate H|]. unfold bind in H. discriminate H.
Qed.

Lemma filtered_defaults cands : filtered [] [] cands = cands.
Proof.
  unfold filtered. induction cands as [|x l IH]; [done|].
  cbn. by rewrite IH.
Qed.

(** X18. With the default [require=[]] and [ignore=[]] the no-match error
    of [find_unique_variable] cannot occur, in any directory tree: nothing
    is filtered out and [find_variable] never returns an empty list, so a
    variable that is nowhere ends in the [TypeError] and not in the
    designated error. *)
Theorem find_unique_variable_defaults_never_no_match env pp variable unique
    h :
  fst (find_unique_variable env pp variable (VList []) (VList []) unique h)
  <> Raised no_match_error.
Proof.
  destruct (find_variable env pp variable false h) as [[[cands|]|e|] h1]
    eqn:Hfind.
  - rewrite (find_unique_variable_run env pp variable (VList []) (VList [])
               [] [] unique h cands h1 eq_refl eq_refl Hfind).
    rewrite filtered_defaults. cbn [fst].
    destruct cands as [|x [|y l]]; [|done|by destruct unique].
    exfalso.
    pose proof Hfind as Hinv. unfold find_variable in Hinv.
    apply bind_returned_inv in Hinv as (allvars & h0 & Hall & _).
    pose proof (find_variable_value env pp variable false h allvars h0 Hall)
      as Hval.
    rewrite Hfind in Hval. cbn [fst] in Hval.
    by destruct (components_with variable allvars).
  - unfold find_unique_variable. cbv zeta. cbn [as_list].
    by rewrite (bind_returned _ _ _ _ _ Hfind).
  - unfold find_unique_variable. cbv zeta. cbn [as_list].
    rewrite (bind_raised _ _ _ _ _ Hfind). cbn [fst].
    apply find_variable_raises in Hfind as [->| ->]; discriminate.
  - unfold find_unique_variable. cbv zeta. cbn [as_list].
    by rewrite (bind_diverged _ _ _ _ Hfind).
Qed.

Lemma find_unique_variable_defaults_never_no_match_witness :
  fst (find_unique_variable (static_tree demo_tree) "/pp" "sst"
         (VList []) (VList []) true [])
  <> Raised no_match_error.
Proof.
  exact (find_unique_variable_defaults_never_no_match
           (static_tree demo_tree) "/pp" "sst" true []).
Defined.
